(** * Subscription renewal by Pix: SubscriptionController.ts and CheckoutSuccess.js

    A shallow embedding of the three controller functions
    ([createSubscription], [webhook], [checkPaymentStatus]) and of the polling
    effect of the [CheckoutSuccess] component, with the properties that the
    specification states about them.

    Layout: the ECMAScript date arithmetic the controllers rely on
    ([JSDate]), the records and the world the handlers run in, a small
    state-and-exception monad, the handlers, the poller, and then the
    theorems. *)

From Stdlib Require Import ZArith QArith Lia Bool List.
From stdpp Require Import base option list gmap strings pretty.

Open Scope Z_scope.

(** ** ECMAScript time values

    A time value is a number of milliseconds since 1970-01-01T00:00:00Z.
    The definitions follow the abstract operations of the language
    specification ("Date objects"): [Day], [TimeWithinDay], [DayFromYear],
    [YearFromTime], [MonthFromTime], [DateFromTime], [MakeDay], [MakeDate],
    [TimeClip], [LocalTime] and [UTC]. *)
Module JSDate.

Definition msPerDay : Z := 86400000.

Definition Day (t : Z) : Z := t / msPerDay.
Definition TimeWithinDay (t : Z) : Z := t mod msPerDay.

Definition isLeap (y : Z) : bool :=
  (y mod 4 =? 0) && (negb (y mod 100 =? 0) || (y mod 400 =? 0)).

Definition DaysInYear (y : Z) : Z := if isLeap y then 366 else 365.

Definition DayFromYear (y : Z) : Z :=
  365 * (y - 1970) + (y - 1969) / 4 - (y - 1901) / 100 + (y - 1601) / 400.

(** The largest year [y] with [DayFromYear y <= d]: an estimate from the
    mean year length, moved by at most one year ([YearFromDay_spec]). *)
Definition YearFromDay (d : Z) : Z :=
  let y0 := 1970 + (400 * d) / 146097 in
  if d <? DayFromYear y0 then y0 - 1
  else if DayFromYear (y0 + 1) <=? d then y0 + 1
  else y0.

Definition YearFromTime (t : Z) : Z := YearFromDay (Day t).

Definition leapDays (y : Z) : Z := if isLeap y then 1 else 0.

Definition InLeapYear (t : Z) : Z := leapDays (YearFromTime t).

Definition DayWithinYear (t : Z) : Z := Day t - DayFromYear (YearFromTime t).

(** Months are numbered from 0 (January) to 11 (December). *)
Definition MonthFromTime (t : Z) : Z :=
  let d := DayWithinYear t in
  let l := InLeapYear t in
  if d <? 31 then 0
  else if d <? 59 + l then 1
  else if d <? 90 + l then 2
  else if d <? 120 + l then 3
  else if d <? 151 + l then 4
  else if d <? 181 + l then 5
  else if d <? 212 + l then 6
  else if d <? 243 + l then 7
  else if d <? 273 + l then 8
  else if d <? 304 + l then 9
  else if d <? 334 + l then 10
  else 11.

Definition DateFromTime (t : Z) : Z :=
  let d := DayWithinYear t in
  let l := InLeapYear t in
  match MonthFromTime t with
  | 0 => d + 1
  | 1 => d - 30
  | 2 => d - 58 - l
  | 3 => d - 89 - l
  | 4 => d - 119 - l
  | 5 => d - 150 - l
  | 6 => d - 180 - l
  | 7 => d - 211 - l
  | 8 => d - 242 - l
  | 9 => d - 272 - l
  | 10 => d - 303 - l
  | _ => d - 333 - l
  end.

(** Days of the year before month [m] (0..11), [l] being 1 in a leap year. *)
Definition monthStart (l m : Z) : Z :=
  match m with
  | 0 => 0
  | 1 => 31
  | 2 => 59 + l
  | 3 => 90 + l
  | 4 => 120 + l
  | 5 => 151 + l
  | 6 => 181 + l
  | 7 => 212 + l
  | 8 => 243 + l
  | 9 => 273 + l
  | 10 => 304 + l
  | _ => 334 + l
  end.

(** [MakeDay year month date]: the day number of the first of the month
    [month mod 12] of the year [year + month / 12], plus [date - 1].  The
    date may overflow the month, which is how [setDate] moves forward. *)
Definition MakeDay (year month date : Z) : Z :=
  let ym := year + month / 12 in
  let mn := month mod 12 in
  DayFromYear ym + monthStart (leapDays ym) mn + date - 1.

Definition MakeDate (day time : Z) : Z := day * msPerDay + time.

Definition maxTime : Z := 8640000000000000.

(** [TimeClip]: [None] stands for NaN, the time value of an Invalid Date. *)
Definition TimeClip (t : Z) : option Z :=
  if Z.abs t <=? maxTime then Some t else None.

(** The host's time zone: [tza t true] is the offset of local time from UTC
    at the UTC instant [t], [tza t false] the offset at the local time [t]
    (LocalTZA of the language specification).  It is host-defined. *)
Definition Zone : Type := Z -> bool -> Z.

Definition LocalTime (tza : Zone) (t : Z) : Z := t + tza t true.
Definition UTC (tza : Zone) (t : Z) : Z := t - tza t false.

(** A zone whose offset never changes, such as UTC (offset 0) or
    America/Sao_Paulo since 2019 (offset -3 hours). *)
Definition fixedZone (offset : Z) : Zone := fun _ _ => offset.

(** [Date.prototype.getDate], on a valid time value. *)
Definition getDate (tza : Zone) (t : Z) : Z := DateFromTime (LocalTime tza t).

(** [Date.prototype.setDate]: the new time value, or [None] when it leaves
    the range of time values. *)
Definition setDate (tza : Zone) (t : Z) (dt : Z) : option Z :=
  let lt := LocalTime tza t in
  let newDate :=
    MakeDate (MakeDay (YearFromTime lt) (MonthFromTime lt) dt)
             (TimeWithinDay lt) in
  TimeClip (UTC tza newDate).

(** A calendar date: what remains of [toISOString()] before the "T". *)
Record CivilDate : Type := mkCivil { year : Z; month : Z; day : Z }.

(** [toISOString().split("T")[0]]: the UTC year, month (1..12) and day. *)
Definition toISODate (t : Z) : CivilDate :=
  mkCivil (YearFromTime t) (MonthFromTime t + 1) (DateFromTime t).

(** [new Date(s)] for a date-only string [s]: UTC midnight of that date. *)
Definition parseDateOnly (c : CivilDate) : Z :=
  MakeDate (MakeDay (year c) (month c - 1) (day c)) 0.

(** Rendering as "YYYY-MM-DD" (years 0..9999) or with the expanded
    six-digit signed year outside that range. *)
Definition pad (n : nat) (z : Z) : string :=
  let s := pretty (Z.abs z) in
  String.append (String.concat "" (repeat "0"%string (n - String.length s))) s.

Definition renderYear (y : Z) : string :=
  if (0 <=? y) && (y <=? 9999) then pad 4 y
  else String.append (if 0 <=? y then "+" else "-") (pad 6 y).

Definition render (c : CivilDate) : string :=
  String.append (renderYear (year c))
    (String.append "-" (String.append (pad 2 (month c))
       (String.append "-" (pad 2 (day c))))).

(** Length of month [m] (0..11), [l] being 1 in a leap year. *)
Definition DaysInMonth (l m : Z) : Z :=
  match m with
  | 1 => 28 + l
  | 3 | 5 | 8 | 10 => 30
  | _ => 31
  end.

End JSDate.

(** ** Records of the persistence layer and of the gateway

    The models [Invoices], [Company] and [Plan] are addressed by primary key;
    a row is kept without its key, and an instance is the key together with
    the row. *)

(** A JavaScript number as far as the controller looks at it: [Number(v)]
    is NaN or a numeric value. *)
Inductive JSNumber : Type :=
| NaN
| Num (q : Q).

Module Invoice.
Record t : Type := mk {
  companyId : Z;
  value : JSNumber;            (* Number(invoice.value) *)
  status : string;
  paymentDate : option Z;
  lastStatus : option string
}.
End Invoice.

Module Company.
(** [dueDate] is kept as the time value that [new Date(company.dueDate)]
    reads from the stored column, [None] when that is an Invalid Date.  The
    elements of a string stand for the code units [length] counts. *)
Record t : Type := mk {
  planId : Z;
  email : string;
  name : string;
  document : option string;
  dueDate : option Z
}.
End Company.

Module Plan.
Record t : Type := mk { name : string }.
End Plan.

(** What [payment.get] resolves to. [external_reference] is the invoice key
    carried by the payment intent, when it carries one. *)
Record PaymentInfo : Type := mkPaymentInfo {
  pi_status : string;
  pi_external_reference : option Z
}.

Record Identification : Type := mkIdentification {
  id_type : string;
  id_number : string
}.

Record Payer : Type := mkPayer {
  payer_email : string;
  payer_first_name : string;
  payer_identification : Identification
}.

(** The body handed to [payment.create]. *)
Record PaymentData : Type := mkPaymentData {
  transaction_amount : Q;
  description : string;
  payment_method_id : string;
  payer : Payer;
  pd_external_reference : string
}.

Record TransactionData : Type := mkTransactionData {
  qr_code : string;
  qr_code_base64 : string
}.

(** What [payment.create] resolves to: [gp_id] is [None] when the answer has
    no (truthy) id, [gp_transaction_data] is [None] when the answer has no
    [point_of_interaction.transaction_data]. *)
Record GatewayPayment : Type := mkGatewayPayment {
  gp_id : option Z;
  gp_transaction_data : option TransactionData
}.

(** ** Exceptions and responses *)

(** A thrown value: [statusCode] is the field of [AppError], [status] the
    field a gateway error may carry. *)
Record Exn : Type := mkExn {
  message : string;
  statusCode : option Z;
  status : option Z
}.

Definition AppError (msg : string) (code : Z) : Exn := mkExn msg (Some code) None.
Definition Error (msg : string) : Exn := mkExn msg None None.

Inductive Result (A : Type) : Type :=
| Ok (a : A)
| Throw (e : Exn).
Arguments Ok {A} a.
Arguments Throw {A} e.

(** [s || d] on strings: the empty string (and an absent one) is falsy. *)
Definition strOr (s d : string) : string :=
  match s with EmptyString => d | _ => s end.

(** [c || d] on an optional number: 0 and an absent one are falsy. *)
Definition numOr (c : option Z) (d : Z) : Z :=
  match c with
  | Some n => if n =? 0 then d else n
  | None => d
  end.

Record QrCode : Type := mkQrCode {
  qrcode : string;
  imagemQrcode : string;
  imagemQrcodePix : string
}.

(** The JSON bodies the three handlers send. *)
Inductive Body : Type :=
| SubscriptionBody (id : Z) (qr : QrCode) (valor_original : Q)
    (plano cliente status payment_type external_reference : string)
| OkTrue                                         (* { ok: true } *)
| StatusBody (status : string) (company : option (Z * Company.t))
    (success : bool) (message : option string).

Record Response : Type := mkResponse { code : Z; body : Body }.

(** [res.json(b)]: the status code stays at its default, 200. *)
Definition json (b : Body) : Response := mkResponse 200 b.

(** A real-time event: [io.emit(name, { action, company })]. *)
Record SocketEvent : Type := mkSocketEvent {
  ev_name : string;
  ev_action : string;
  ev_company : Z * Company.t
}.

(** ** The world a handler runs in *)

Inductive GatewayAnswer (A : Type) : Type :=
| Resolves (a : A)
| Rejects (e : Exn).
Arguments Resolves {A} a.
Arguments Rejects {A} e.

(** [faults] decides which calls to the persistence layer fail: each call
    takes the head of the list away and throws when it is [true]; with the
    list exhausted the calls succeed.  [logFaults] does the same for the
    appends of [logToFile], which are bare calls of [fs.appendFileSync].
    [now] is what [new Date()] reads, taken once for the whole request,
    [zone] the time zone of the host.  [errorLog] and [webhookLog] are the
    two files [logToFile] appends to, [emitted] the events sent through the
    socket, [created] the payment intents requested from the gateway.  Lists
    grow at the end. *)
Record World : Type := mkWorld {
  invoices : gmap Z Invoice.t;
  companies : gmap Z Company.t;
  plans : gmap Z Plan.t;
  now : Z;
  zone : JSDate.Zone;
  faults : list bool;
  logFaults : list bool;
  paymentGet : Z -> GatewayAnswer PaymentInfo;
  paymentCreate : PaymentData -> GatewayAnswer (option GatewayPayment);
  errorLog : list (Z * string);
  webhookLog : list (Z * string);
  emitted : list SocketEvent;
  created : list PaymentData
}.

Definition set_invoices (m : gmap Z Invoice.t) (w : World) : World :=
  mkWorld m (companies w) (plans w) (now w) (zone w) (faults w) (logFaults w)
    (paymentGet w) (paymentCreate w) (errorLog w) (webhookLog w) (emitted w)
    (created w).

Definition set_companies (m : gmap Z Company.t) (w : World) : World :=
  mkWorld (invoices w) m (plans w) (now w) (zone w) (faults w) (logFaults w)
    (paymentGet w) (paymentCreate w) (errorLog w) (webhookLog w) (emitted w)
    (created w).

Definition set_faults (f : list bool) (w : World) : World :=
  mkWorld (invoices w) (companies w) (plans w) (now w) (zone w) f (logFaults w)
    (paymentGet w) (paymentCreate w) (errorLog w) (webhookLog w) (emitted w)
    (created w).

Definition set_logFaults (f : list bool) (w : World) : World :=
  mkWorld (invoices w) (companies w) (plans w) (now w) (zone w) (faults w) f
    (paymentGet w) (paymentCreate w) (errorLog w) (webhookLog w) (emitted w)
    (created w).

Definition set_errorLog (l : list (Z * string)) (w : World) : World :=
  mkWorld (invoices w) (companies w) (plans w) (now w) (zone w) (faults w)
    (logFaults w) (paymentGet w) (paymentCreate w) l (webhookLog w) (emitted w)
    (created w).

Definition set_webhookLog (l : list (Z * string)) (w : World) : World :=
  mkWorld (invoices w) (companies w) (plans w) (now w) (zone w) (faults w)
    (logFaults w) (paymentGet w) (paymentCreate w) (errorLog w) l (emitted w)
    (created w).

Definition set_emitted (l : list SocketEvent) (w : World) : World :=
  mkWorld (invoices w) (companies w) (plans w) (now w) (zone w) (faults w)
    (logFaults w) (paymentGet w) (paymentCreate w) (errorLog w) (webhookLog w) l
    (created w).

Definition set_created (l : list PaymentData) (w : World) : World :=
  mkWorld (invoices w) (companies w) (plans w) (now w) (zone w) (faults w)
    (logFaults w) (paymentGet w) (paymentCreate w) (errorLog w) (webhookLog w)
    (emitted w) l.

(** ** A state-and-exception monad for the handlers *)

Definition M (A : Type) : Type := World -> Result A * World.

Definition ret {A} (a : A) : M A := fun w => (Ok a, w).

Definition throw {A} (e : Exn) : M A := fun w => (Throw e, w).

Definition bind {A B} (m : M A) (k : A -> M B) : M B :=
  fun w =>
    match m w with
    | (Ok a, w') => k a w'
    | (Throw e, w') => (Throw e, w')
    end.

(** [try { m } catch (e) { h e }]: the effects of [m] up to the throw stay. *)
Definition try_catch {A} (m : M A) (h : Exn -> M A) : M A :=
  fun w =>
    match m w with
    | (Ok a, w') => (Ok a, w')
    | (Throw e, w') => h e w'
    end.

#[global] Instance M_ret : MRet M := @ret.
#[global] Instance M_bind : MBind M := fun A B k m => bind m k.

Inductive LogFile : Type := ErrorLog | WebhookLog.

(** What [fs.appendFileSync] throws when the file cannot be written: a
    system error, with a message and neither [statusCode] nor [status]. *)
Definition appendFailed : Exn :=
  Error "ENOSPC: no space left on device, write".

(** [logToFile]: one line, prefixed with the time of the append.  The text
    of a line is the fixed part of the message with the identifiers put in;
    the JSON renderings of objects are left out.  There is nothing around
    the call of [fs.appendFileSync]: when the append fails nothing is
    written and its error is thrown to the caller. *)
Definition logToFile (f : LogFile) (msg : string) : M unit :=
  fun w =>
    let w' := set_logFaults (tail (logFaults w)) w in
    if hd false (logFaults w)
    then (Throw appendFailed, w')
    else
      match f with
      | ErrorLog => (Ok tt, set_errorLog (errorLog w' ++ [(now w', msg)]) w')
      | WebhookLog =>
          (Ok tt, set_webhookLog (webhookLog w' ++ [(now w', msg)]) w')
      end.

(** A call to the persistence layer: it fails when the world says so. *)
Definition db {A} (op : World -> A * World) : M A :=
  fun w =>
    let w' := set_faults (tail (faults w)) w in
    if hd false (faults w)
    then (Throw (Error "SequelizeDatabaseError"), w')
    else let '(a, w'') := op w' in (Ok a, w'').

Definition gateway {A} (ans : World -> GatewayAnswer A) : M A :=
  fun w =>
    match ans w with
    | Resolves a => (Ok a, w)
    | Rejects e => (Throw e, w)
    end.

(** [new Date()] *)
Definition newDate : M Z := fun w => (Ok (now w), w).

Definition hostZone : M JSDate.Zone := fun w => (Ok (zone w), w).

Module Invoices.
Definition findByPk (k : Z) : M (option Invoice.t) :=
  db (fun w => (invoices w !! k, w)).

(** [invoice.update(...)] on the instance with key [k]. *)
Definition update (k : Z) (i : Invoice.t) : M unit :=
  db (fun w => (tt, set_invoices (<[k := i]> (invoices w)) w)).
End Invoices.

Module Companies.
Definition findByPk (k : Z) : M (option Company.t) :=
  db (fun w => (companies w !! k, w)).

Definition update (k : Z) (c : Company.t) : M unit :=
  db (fun w => (tt, set_companies (<[k := c]> (companies w)) w)).

(** [company.reload()]: the row as it is stored now. *)
Definition reload (k : Z) (c : Company.t) : M Company.t :=
  db (fun w => (default c (companies w !! k), w)).
End Companies.

Module Plans.
Definition findByPk (k : Z) : M (option Plan.t) :=
  db (fun w => (plans w !! k, w)).
End Plans.

Definition emit (e : SocketEvent) : M unit :=
  fun w => (Ok tt, set_emitted (emitted w ++ [e]) w).

(** ** Subscription extension

    The block both confirmation paths run on the company they found:
    [[
      const currentDueDate = new Date(company.dueDate);
      const today = new Date();
      const baseDate = currentDueDate < today ? today : currentDueDate;
      const expiresAt = new Date(baseDate);
      expiresAt.setDate(expiresAt.getDate() + 30);
      const date = expiresAt.toISOString().split("T")[0];
    ]]
    A comparison with an Invalid Date is false, [setDate] leaves an Invalid
    Date invalid, and [toISOString] throws a RangeError on one. *)
Definition baseDate (currentDueDate : option Z) (today : Z) : option Z :=
  match currentDueDate with
  | Some d => if d <? today then Some today else Some d
  | None => None
  end.

Definition extendDueDate (tza : JSDate.Zone) (dueDate : option Z) (today : Z)
  : Result JSDate.CivilDate :=
  let currentDueDate := dueDate in
  let expiresAt :=
    match baseDate currentDueDate today with
    | Some b => JSDate.setDate tza b (JSDate.getDate tza b + 30)
    | None => None
    end in
  match expiresAt with
  | Some t => Ok (JSDate.toISODate t)
  | None => Throw (Error "RangeError: Invalid time value")
  end.

Definition liftResult {A} (r : Result A) : M A := fun w => (r, w).

(** [company.update({ dueDate: date })] in memory: the date-only string
    reads back as midnight UTC of that date. *)
Definition withDueDate (c : Company.t) (date : JSDate.CivilDate) : Company.t :=
  Company.mk (Company.planId c) (Company.email c) (Company.name c)
    (Company.document c) (Some (JSDate.parseDateOnly date)).

(** [invoice.update({ status: 'paid', paymentDate: new Date(), lastStatus })]
    in memory. *)
Definition asPaid (i : Invoice.t) (paidAt : Z) (lastStatus : string) : Invoice.t :=
  Invoice.mk (Invoice.companyId i) (Invoice.value i) "paid" (Some paidAt)
    (Some lastStatus).

(** Truthiness of an optional number: absent and 0 are falsy. *)
Definition truthy (n : option Z) : option Z :=
  match n with
  | Some k => if k =? 0 then None else Some k
  | None => None
  end.

(** [findByPk] resolves to null, without a query, on null or undefined. *)
Definition findInvoice (k : option Z) : M (option Invoice.t) :=
  match k with
  | Some k => Invoices.findByPk k
  | None => mret None
  end.

(** ** createSubscription *)

(** [req.body.invoiceId] as the schema [Yup.number().required(...)] sees it:
    absent (undefined or null), not castable to a number, or a number. *)
Inductive Field : Type :=
| Missing
| Malformed
| Number (n : Z).

Record CreateRequest : Type := mkCreateRequest {
  req_companyId : option Z;      (* req.user?.companyId *)
  req_invoiceId : Field          (* req.body.invoiceId *)
}.

(** [schema.validate(req.body)]: a number passes whatever its value; the
    thrown error carries the joined [errors].  The result is the number the
    handler reads from [req.body.invoiceId] once the validation has passed. *)
Definition schema_validate (f : Field) : M Z :=
  match f with
  | Missing => throw (Error "ID da fatura é obrigatório")
  | Malformed => throw (Error "invoiceId must be a `number` type")
  | Number n => mret n
  end.

(** [isNaN(priceNumber) || priceNumber <= 0] *)
Definition invalidPrice (v : JSNumber) : bool :=
  match v with
  | NaN => true
  | Num q => Qle_bool q 0
  end.

Definition priceNumber (v : JSNumber) : Q :=
  match v with
  | NaN => 0%Q
  | Num q => q
  end.

Definition documentLength (d : option string) : option nat :=
  String.length <$> d.

(** [company.document?.length === 11 ? 'CPF' : 'CNPJ'] *)
Definition identificationType (document : option string) : string :=
  match documentLength document with
  | Some 11%nat => "CPF"
  | _ => "CNPJ"
  end.

Definition paymentDataFor (invoiceId : Z) (invoice : Invoice.t)
    (company : Company.t) (plan : Plan.t) : PaymentData :=
  mkPaymentData
    (priceNumber (Invoice.value invoice))
    ("Fatura #" +:+ pretty invoiceId +:+ " - " +:+ Plan.name plan)
    "pix"
    (mkPayer (Company.email company) (Company.name company)
       (mkIdentification
          (identificationType (Company.document company))
          (default "" (Company.document company))))
    (pretty invoiceId).

(** The call [payment.create(paymentData)], recorded in [created]. *)
Definition payment_create (d : PaymentData) : M (option GatewayPayment) :=
  (fun w => (Ok tt, set_created (created w ++ [d]) w));;
  gateway (fun w => paymentCreate w d).

Definition payment_get (id : Z) : M PaymentInfo :=
  gateway (fun w => paymentGet w id).

Definition createSubscription (req : CreateRequest) : M Response :=
  try_catch
    (logToFile ErrorLog "=== Nova tentativa de criar assinatura ===";;
     match truthy (req_companyId req) with
     | None => throw (AppError "Usuário não autenticado" 401)
     | Some companyId =>
     logToFile ErrorLog ("CompanyId: " +:+ pretty companyId);;
     invoiceId ← try_catch (schema_validate (req_invoiceId req))
                   (fun err =>
                      logToFile ErrorLog ("Erro de validação: " +:+ message err);;
                      throw (AppError (message err) 400));
     invoice ← Invoices.findByPk invoiceId;
     match invoice with
     | None =>
         logToFile ErrorLog ("Fatura não encontrada: " +:+ pretty invoiceId);;
         throw (AppError "Fatura não encontrada" 404)
     | Some invoice =>
     if negb (Invoice.companyId invoice =? companyId) then
       logToFile ErrorLog
         ("Fatura não pertence à empresa: Invoice.companyId="
            +:+ pretty (Invoice.companyId invoice)
            +:+ ", companyId=" +:+ pretty companyId);;
       throw (AppError "Fatura não pertence à empresa" 403)
     else
     company ← Companies.findByPk companyId;
     match company with
     | None =>
         logToFile ErrorLog ("Empresa não encontrada: " +:+ pretty companyId);;
         throw (AppError "Empresa não encontrada" 404)
     | Some company =>
     plan ← Plans.findByPk (Company.planId company);
     match plan with
     | None =>
         logToFile ErrorLog
           ("Plano não encontrado: " +:+ pretty (Company.planId company));;
         throw (AppError "Plano não encontrado" 404)
     | Some plan =>
     if invalidPrice (Invoice.value invoice) then
       logToFile ErrorLog "Valor inválido";;
       throw (AppError "Valor da fatura inválido ou menor/igual a zero" 400)
     else
     try_catch
       (let paymentData := paymentDataFor invoiceId invoice company plan in
        logToFile ErrorLog "Criando pagamento PIX no Mercado Pago";;
        response ← payment_create paymentData;
        match response ≫= (fun r => truthy (gp_id r) ≫= (fun id => Some (id, r))) with
        | None =>
            logToFile ErrorLog "Resposta inválida do Mercado Pago";;
            throw (AppError "Erro ao gerar QR code PIX" 500)
        | Some (id, response) =>
            logToFile ErrorLog "Resposta do Mercado Pago";;
            match gp_transaction_data response with
            | None => throw (Error "TypeError: Cannot read properties of undefined")
            | Some td =>
                let result :=
                  SubscriptionBody id
                    (mkQrCode (qr_code td) (qr_code_base64 td) (qr_code_base64 td))
                    (priceNumber (Invoice.value invoice))
                    (Plan.name plan) (Company.name company)
                    "pending" "pix" (pretty invoiceId) in
                logToFile ErrorLog "Retornando resultado";;
                mret (json result)
            end
        end)
       (fun mpError =>
          logToFile ErrorLog "Erro no Mercado Pago";;
          throw (AppError
                   ("Erro ao gerar QR code PIX: "
                      +:+ strOr (message mpError) "Erro desconhecido")
                   (numOr (status mpError) 500)))
     end end end end)
    (fun error =>
       logToFile ErrorLog "Erro geral";;
       throw (AppError (strOr (message error) "Erro ao criar a assinatura")
                       (numOr (statusCode error) 500))).

(** ** webhook *)

Record WebhookData : Type := mkWebhookData { wd_id : option Z }.

Record WebhookBody : Type := mkWebhookBody {
  wb_data : option WebhookData;
  wb_action : option string
}.

Record WebhookRequest : Type := mkWebhookRequest {
  wr_type : option string;       (* req.params.type, an optional segment *)
  wr_body : option WebhookBody   (* req.body *)
}.

Definition isMercadoPago (type : option string) : bool :=
  match type with
  | Some t => String.eqb t "mercadopago"
  | None => false
  end.

Definition isPaymentAction (action : option string) : bool :=
  match action with
  | Some a => String.eqb a "payment.updated" || String.eqb a "payment.created"
  | None => false
  end.

Definition paymentEvent (companyId : Z) (company : Company.t) : SocketEvent :=
  mkSocketEvent ("company-" +:+ pretty companyId +:+ "-payment") "CONCLUIDA"
    (companyId, company).

Definition alreadyProcessed (status : string) : Body :=
  StatusBody status None true
    (Some "Pagamento já foi processado anteriormente!").

(** The block guarded by the test of the action yields [Some r] where the
    source returns [r] from inside it, and [None] where control reaches the
    final [return res.json({ ok: true })]. *)
Definition webhook (req : WebhookRequest) : M Response :=
  try_catch
    (let type := wr_type req in
     match wr_body req with
     | None => throw (Error "TypeError: Cannot destructure property of req.body")
     | Some reqBody =>
     let data := wb_data reqBody in
     let action := wb_action reqBody in
     logToFile WebhookLog "Webhook recebido";;
     if negb (isMercadoPago type) then mret (json OkTrue)
     else
       (if isPaymentAction action then
          match data with
          | None => throw (Error "TypeError: Cannot read properties of undefined")
          | Some data =>
          match truthy (wd_id data) with
          | None => mret None
          | Some id =>
          logToFile WebhookLog ("Buscando informações do pagamento " +:+ pretty id);;
          paymentInfo ← payment_get id;
          logToFile WebhookLog ("Status do pagamento: " +:+ pi_status paymentInfo);;
          if String.eqb (pi_status paymentInfo) "approved" then
            let invoiceId := pi_external_reference paymentInfo in
            logToFile WebhookLog "Processando pagamento aprovado para fatura";;
            invoice ← findInvoice invoiceId;
            match invoiceId, invoice with
            | Some invoiceKey, Some invoice =>
                if String.eqb (Invoice.status invoice) "paid" then
                  mret (Some (json (alreadyProcessed (pi_status paymentInfo))))
                else
                  logToFile WebhookLog "Fatura encontrada";;
                  company ← Companies.findByPk (Invoice.companyId invoice);
                  match company with
                  | Some company =>
                      let companyKey := Invoice.companyId invoice in
                      logToFile WebhookLog "Empresa encontrada";;
                      tza ← hostZone;
                      today ← newDate;
                      date ← liftResult
                               (extendDueDate tza (Company.dueDate company) today);
                      logToFile WebhookLog
                        ("Atualizando data de vencimento para: "
                           +:+ JSDate.render date);;
                      let company := withDueDate company date in
                      Companies.update companyKey company;;
                      paidAt ← newDate;
                      Invoices.update invoiceKey
                        (asPaid invoice paidAt (pi_status paymentInfo));;
                      company ← Companies.reload companyKey company;
                      emit (paymentEvent companyKey company);;
                      logToFile WebhookLog
                        ("Pagamento processado com sucesso para empresa "
                           +:+ pretty companyKey);;
                      mret None
                  | None =>
                      logToFile WebhookLog "Empresa não encontrada para a fatura";;
                      mret None
                  end
            | _, _ =>
                logToFile WebhookLog "Fatura não encontrada";;
                mret None
            end
          else
            logToFile WebhookLog
              ("Status do pagamento não é approved: " +:+ pi_status paymentInfo);;
            mret None
          end end
        else
          logToFile WebhookLog "Tipo de ação não suportada";;
          mret None)
       ≫= (fun returned =>
             match returned with
             | Some response => mret response
             | None => mret (json OkTrue)
             end)
     end)
    (fun error =>
       logToFile WebhookLog ("Erro no webhook: " +:+ message error);;
       (* Retorna 200 mesmo com erro para o Mercado Pago não retentar *)
       mret (json OkTrue)).

(** ** checkPaymentStatus

    As in [webhook], [None] stands for reaching the final
    [return res.json({ status, success: false })]. *)

Definition checkPaymentStatus (paymentId : Z) : M Response :=
  try_catch
    (paymentInfo ← payment_get paymentId;
     (if String.eqb (pi_status paymentInfo) "approved" then
        let invoiceId := pi_external_reference paymentInfo in
        invoice ← findInvoice invoiceId;
        match invoiceId, invoice with
        | Some invoiceKey, Some invoice =>
            if String.eqb (Invoice.status invoice) "paid" then
              mret (Some (json (alreadyProcessed (pi_status paymentInfo))))
            else
              company ← Companies.findByPk (Invoice.companyId invoice);
              match company with
              | Some company =>
                  let companyKey := Invoice.companyId invoice in
                  tza ← hostZone;
                  today ← newDate;
                  date ← liftResult
                           (extendDueDate tza (Company.dueDate company) today);
                  let company := withDueDate company date in
                  Companies.update companyKey company;;
                  paidAt ← newDate;
                  Invoices.update invoiceKey
                    (asPaid invoice paidAt (pi_status paymentInfo));;
                  company ← Companies.reload companyKey company;
                  mret (Some (json (StatusBody (pi_status paymentInfo)
                                      (Some (companyKey, company)) true
                                      (Some "Pagamento aprovado com sucesso!"))))
              | None => mret None
              end
        | _, _ => mret None
        end
      else mret None)
     ≫= (fun returned =>
           match returned with
           | Some response => mret response
           | None =>
               mret (json (StatusBody (pi_status paymentInfo) None false None))
           end))
    (fun error =>
       throw (AppError "Erro ao verificar status do pagamento" 500)).

(** ** The operations of the feature, as one type *)

Inductive Operation : Type :=
| CreateSubscription (req : CreateRequest)
| Webhook (req : WebhookRequest)
| CheckPaymentStatus (paymentId : Z).

Definition runOperation (op : Operation) (w : World) : Result Response * World :=
  match op with
  | CreateSubscription req => createSubscription req w
  | Webhook req => webhook req w
  | CheckPaymentStatus paymentId => checkPaymentStatus paymentId w
  end.

(** ** The polling effect of CheckoutSuccess

    A cycle is one run of [checkPayment]: the request goes out, and the part
    after the [await] runs when the reply is in.  Cycles are taken one after
    the other, each reply being in before the next tick of the interval. *)
Module Poller.

Definition maxAttempts : Z := 120.

Inductive Toast : Type :=
| ToastSuccess (dueDate : option Z)   (* "Sua licença foi renovada até ..." *)
| ToastInfo                           (* "Tempo de verificação expirado. ..." *)
| ToastError.                         (* "Sua sessão expirou. ..." *)

(** What [api.get] settles to: a body with its [success] flag and its
    [company], when it has one, or a rejection with the HTTP status of
    [error.response], when there is one. *)
Inductive Reply : Type :=
| Data (success : bool) (company : option Company.t)
| Rejected (status : option Z).

(** [intervalId] is [true] while the interval is set; [requests] counts the
    calls of [api.get]; [timeouts] are the redirections scheduled with
    [setTimeout], with their delays. *)
Record State : Type := mkState {
  attempts : Z;
  isChecking : bool;
  intervalId : bool;
  requests : nat;
  toasts : list Toast;
  timeouts : list (string * Z)
}.

Definition init : State := mkState 0 true false 0 [] [].

(** [api.get(`/subscription/check/${pix.id}`)] goes out. *)
Definition request (s : State) : State :=
  mkState (attempts s) (isChecking s) (intervalId s) (S (requests s))
    (toasts s) (timeouts s).

(** [setIsChecking(false); clearInterval(intervalId);] *)
Definition stop (s : State) : State :=
  mkState (attempts s) false false (requests s) (toasts s) (timeouts s).

Definition toast (t : Toast) (s : State) : State :=
  mkState (attempts s) (isChecking s) (intervalId s) (requests s)
    (toasts s ++ [t]) (timeouts s).

Definition setTimeout (path : string) (delay : Z) (s : State) : State :=
  mkState (attempts s) (isChecking s) (intervalId s) (requests s)
    (toasts s) (timeouts s ++ [(path, delay)]).

(** [attempts++] *)
Definition increment (s : State) : State :=
  mkState (attempts s + 1) (isChecking s) (intervalId s) (requests s)
    (toasts s) (timeouts s).

(** The [catch] block. *)
Definition onError (status : option Z) (s : State) : State :=
  match status with
  | Some 401 | Some 403 => setTimeout "/login" 3000 (toast ToastError s)
  | _ => s
  end.

(** The body of [checkPayment] after the [await].  With [data.success] and
    no [data.company], reading [data.company.dueDate] throws after the
    interval is cleared, and the [catch] block runs. *)
Definition settle (r : Reply) (s : State) : State :=
  match r with
  | Data true (Some company) =>
      increment
        (setTimeout "/" 4000
           (toast (ToastSuccess (Company.dueDate company)) (stop s)))
  | Data true None => onError None (stop s)
  | Data false _ =>
      increment
        (if maxAttempts <=? attempts s then toast ToastInfo (stop s) else s)
  | Rejected status => onError status s
  end.

Definition checkPayment (r : Reply) (s : State) : State :=
  settle r (request s).

(** [intervalId = setInterval(checkPayment, 5000)] *)
Definition setInterval (s : State) : State :=
  mkState (attempts s) (isChecking s) true (requests s) (toasts s) (timeouts s).

(** The effect on mount: the first request goes out at once, the interval
    is set, and then the first reply is in. *)
Definition mount (r : Reply) : State :=
  settle r (setInterval (request init)).

(** A tick of the interval: nothing when the interval is cleared. *)
Definition tick (r : Reply) (s : State) : State :=
  if intervalId s then checkPayment r s else s.

(** The cleanup of the effect. *)
Definition unmount (s : State) : State :=
  if intervalId s
  then mkState (attempts s) (isChecking s) false (requests s) (toasts s)
         (timeouts s)
  else s.

Definition ticks (rs : list Reply) (s : State) : State :=
  fold_left (fun s r => tick r s) rs s.

(** The poller from mount on, through the replies [r :: rs]. *)
Definition poll (r : Reply) (rs : list Reply) : State := ticks rs (mount r).

(** The terminal state reached by running out of attempts. *)
Definition expired (s : State) : Prop :=
  isChecking s = false /\ intervalId s = false /\ In ToastInfo (toasts s).

Definition unsuccessful : Reply := Data false None.

End Poller.

(** ** Concrete hosts and worlds used in the examples *)

Definition hour : Z := 3600000.

(** UTC time value of a civil date and time of day. *)
Definition utc (y m d hh mm : Z) : Z :=
  JSDate.MakeDate (JSDate.MakeDay y (m - 1) d) (hh * hour + mm * 60000).

(** America/New_York around the start of daylight saving time in 2024:
    UTC-5 until 2024-03-10 02:00 local (07:00 UTC), UTC-4 after. *)
Definition newYork : JSDate.Zone :=
  fun t isUTC =>
    if isUTC
    then (if t <? utc 2024 3 10 7 0 then -5 * hour else -4 * hour)
    else (if t <? utc 2024 3 10 3 0 then -5 * hour else -4 * hour).

Definition saoPaulo : JSDate.Zone := JSDate.fixedZone (-3 * hour).

Definition noGatewayGet : Z -> GatewayAnswer PaymentInfo :=
  fun _ => Rejects (mkExn "Payment not found" None (Some 404)).

Definition acme : Company.t :=
  Company.mk 1 "financeiro@acme.example" "Acme" (Some "12345678901")
    (Some (utc 2024 6 1 0 0)).

Definition basic : Plan.t := Plan.mk "Basic".

Definition pendingInvoice : Invoice.t :=
  Invoice.mk 7 (Num (499 # 10)) "pending" None None.

Definition paidInvoice : Invoice.t :=
  asPaid pendingInvoice (utc 2024 5 20 11 0) "approved".

Definition approvedGet : Z -> GatewayAnswer PaymentInfo :=
  fun id => if id =? 9001 then Resolves (mkPaymentInfo "approved" (Some 42))
            else noGatewayGet id.

Definition pixCreate : PaymentData -> GatewayAnswer (option GatewayPayment) :=
  fun _ => Resolves (Some (mkGatewayPayment (Some 9001)
                             (Some (mkTransactionData "00020126" "iVBORw0KGgo=")))).

(** Tenant 7 with one invoice, number 42, of 49.90. *)
Definition worldWith (i : Invoice.t) : World :=
  mkWorld {[ 42 := i ]} {[ 7 := acme ]} {[ 1 := basic ]}
    (utc 2024 5 20 12 0) saoPaulo [] [] approvedGet pixCreate [] [] [] [].

Definition pendingWorld : World := worldWith pendingInvoice.
Definition paidWorld : World := worldWith paidInvoice.

Definition paymentUpdated : WebhookRequest :=
  mkWebhookRequest (Some "mercadopago")
    (Some (mkWebhookBody (Some (mkWebhookData (Some 9001)))
             (Some "payment.updated"))).

(** The world [w] on a host where no file can be appended to for the time
    of two appends. *)
Definition diskFull (w : World) : World := set_logFaults [true; true] w.

(** Tenant 7, due since 2024-01-01, on a host in New York at 00:30 UTC of
    2024-03-01, which is 19:30 of 29 February on the local clock. *)
Definition lapsed : Company.t :=
  Company.mk 1 "financeiro@acme.example" "Acme" (Some "12345678901")
    (Some (utc 2024 1 1 0 0)).

Definition newYorkWorld : World :=
  mkWorld {[ 42 := pendingInvoice ]} {[ 7 := lapsed ]} {[ 1 := basic ]}
    (utc 2024 3 1 0 30) newYork [] [] approvedGet pixCreate [] [] [] [].

(** ** Vocabulary of the statements *)

(** The HTTP status a thrown [AppError] is answered with, its
    [statusCode]. *)
Definition thrownStatus {A} (r : Result A) : option Z :=
  match r with
  | Ok _ => None
  | Throw e => statusCode e
  end.

(** The webhook request [req] is a payment notification of the gateway for
    the payment [id]: the route parameter is "mercadopago", the action is
    one of the two handled, and [data.id] is [id]. *)
Definition notifies (req : WebhookRequest) (id : Z) : Prop :=
  isMercadoPago (wr_type req) = true
  /\ exists reqBody data,
       wr_body req = Some reqBody
       /\ isPaymentAction (wb_action reqBody) = true
       /\ wb_data reqBody = Some data
       /\ truthy (wd_id data) = Some id.

(** In the world [w] the gateway reports the payment [id] approved, and its
    external reference is the key of the invoice [invoice]. *)
Definition approvedFor (w : World) (id invoiceKey : Z) (invoice : Invoice.t)
  : Prop :=
  paymentGet w id = Resolves (mkPaymentInfo "approved" (Some invoiceKey))
  /\ invoices w !! invoiceKey = Some invoice.

(** The answer for a payment that was confirmed before. *)
Definition previouslyProcessed : Result Response :=
  Ok (json (alreadyProcessed "approved")).

(** The two entry points of the confirmation logic. *)
Inductive Entry : Type := Poll | Hook.

Definition confirm (e : Entry) (req : WebhookRequest) (id : Z) : M Response :=
  match e with
  | Poll => checkPaymentStatus id
  | Hook => webhook req
  end.

(** The appends the entry point makes succeed: a condition on the webhook
    and on webhook.log only, the poll appends to no file. *)
Definition logWritable (e : Entry) (w : World) : Prop :=
  match e with
  | Poll => True
  | Hook => logFaults w = []
  end.

(** The constraints of the creation endpoint, in the words of the
    specification, each with the status of its violation.  An identifier
    is present when the body holds a number. *)
Module CreationSpec.

Definition caller (req : CreateRequest) : option Z :=
  truthy (req_companyId req).

Definition invoiceKey (req : CreateRequest) : option Z :=
  match req_invoiceId req with
  | Number n => Some n
  | _ => None
  end.

Definition invoiceOf (req : CreateRequest) (w : World) : option Invoice.t :=
  invoiceKey req ≫= (fun k => invoices w !! k).

Definition tenantOf (req : CreateRequest) (w : World) : option Company.t :=
  caller req ≫= (fun c => companies w !! c).

Definition planOf (req : CreateRequest) (w : World) : option Plan.t :=
  tenantOf req w ≫= (fun c => plans w !! Company.planId c).

Definition belongsToCaller (req : CreateRequest) (w : World) : bool :=
  match invoiceOf req w, caller req with
  | Some i, Some c => Invoice.companyId i =? c
  | _, _ => false
  end.

Definition positive (v : JSNumber) : bool :=
  match v with
  | Num q => match (0 ?= q)%Q with Lt => true | _ => false end
  | NaN => false
  end.

Definition valuePositive (req : CreateRequest) (w : World) : bool :=
  match invoiceOf req w with
  | Some i => positive (Invoice.value i)
  | None => false
  end.

Definition isSome {A} (o : option A) : bool :=
  match o with Some _ => true | None => false end.

Definition constraints (req : CreateRequest) (w : World) : list (bool * Z) :=
  [ (isSome (caller req), 401);        (* caller is authenticated *)
    (isSome (invoiceKey req), 400);    (* invoice identifier present *)
    (isSome (invoiceOf req w), 404);   (* invoice exists *)
    (belongsToCaller req w, 403);      (* invoice belongs to the caller's tenant *)
    (isSome (tenantOf req w), 404);    (* tenant exists *)
    (isSome (planOf req w), 404);      (* tenant's plan exists *)
    (valuePositive req w, 400) ].      (* invoice value is a positive number *)

(** The status of the first constraint that does not hold. *)
Fixpoint firstViolated (cs : list (bool * Z)) : option Z :=
  match cs with
  | [] => None
  | (true, _) :: rest => firstViolated rest
  | (false, status) :: _ => Some status
  end.

End CreationSpec.

(** What an operation does to the stored companies: a row is either left
    as it is, or its due date is replaced by the extension of the one it
    had. *)
Definition extended (w w' : World) : Prop :=
  forall k,
    companies w' !! k = companies w !! k
    \/ exists company date,
         companies w !! k = Some company
         /\ extendDueDate (zone w) (Company.dueDate company) (now w) = Ok date
         /\ companies w' !! k = Some (withDueDate company date).

(** Offsets from UTC of at most a day, as the zones of the world have. *)
Definition zoneWithinADay (tza : JSDate.Zone) : Prop :=
  forall t isUTC, Z.abs (tza t isUTC) <= JSDate.msPerDay.

(** ** Reasoning about handlers

    [wp m Q w]: running [m] from the world [w] ends in a result and a world
    that satisfy [Q].  Handlers are total functions, so this is a statement
    about the one run there is. *)
Definition wp {A} (m : M A) (Q : Result A -> World -> Prop) (w : World) : Prop :=
  Q (m w).1 (m w).2.

(** ** Further vocabulary *)

(** The creation request [req] passes every check of [createSubscription]
    in the world [w]: the caller is the company [companyId], the body holds
    the number [n], which is the key of [invoice], an invoice of that
    company with a valid price, and the company and its plan are stored. *)
Definition validCreation (req : CreateRequest) (w : World) (companyId n : Z)
    (invoice : Invoice.t) (company : Company.t) (plan : Plan.t) : Prop :=
  truthy (req_companyId req) = Some companyId
  /\ req_invoiceId req = Number n
  /\ invoices w !! n = Some invoice
  /\ Invoice.companyId invoice = companyId
  /\ companies w !! companyId = Some company
  /\ plans w !! Company.planId company = Some plan
  /\ invalidPrice (Invoice.value invoice) = false.

(** The notification [req] for the payment [id] finds, in the world [w], an
    approved payment of the invoice [invoice], not yet paid, of the stored
    company [company]. *)
Definition confirmable (req : WebhookRequest) (w : World) (id invoiceKey : Z)
    (invoice : Invoice.t) (company : Company.t) : Prop :=
  notifies req id
  /\ approvedFor w id invoiceKey invoice
  /\ Invoice.status invoice <> "paid"
  /\ companies w !! Invoice.companyId invoice = Some company.

(** The two worlds hold the same rows and have sent the same events. *)
Definition sameData (w w' : World) : Prop :=
  invoices w' = invoices w
  /\ companies w' = companies w
  /\ plans w' = plans w
  /\ emitted w' = emitted w.

(** What the poller reads from a 200 answer: [data.success], truthy or not,
    and [data.company], when the body has one. *)
Definition dataOf (b : Body) : Poller.Reply :=
  match b with
  | StatusBody _ company success _ => Poller.Data success (snd <$> company)
  | _ => Poller.Data false None
  end.

(** ** The copy button of CheckoutSuccess

    [handleCopyQR] schedules [setCopied(false)] a second later and then
    sets [copied].  [pending] holds the times at which the scheduled
    callbacks are due, in the order of their scheduling. *)
Module CopyButton.

Record State : Type := mkState {
  copied : bool;
  pending : list Z
}.

Definition init : State := mkState false [].

(** [handleCopyQR], run at the time [t]. *)
Definition handleCopyQR (t : Z) (s : State) : State :=
  mkState true (pending s ++ [t + 1000]).

(** The clock reaches [t]: the callbacks due by then have run. *)
Definition elapse (t : Z) (s : State) : State :=
  mkState
    (if forallb (fun due => t <? due) (pending s) then copied s else false)
    (filter (fun due => t < due) (pending s)).

(** Copies at the times [ts], the clock reaching each time first. *)
Definition copies (ts : list Z) (s : State) : State :=
  fold_left (fun s t => handleCopyQR t (elapse t s)) ts s.

(** While [copied] is set a callback is pending. *)
Definition armed (s : State) : Prop := copied s = true -> pending s <> [].

End CopyButton.

(** The answer of [payment.create] as far as the handler can use it: the id
    and the QR data, when the answer has both. *)
Definition usable (a : option GatewayPayment) : option (Z * TransactionData) :=
  r ← a; id ← truthy (gp_id r); td ← gp_transaction_data r; Some (id, td).

(** ** More concrete worlds *)

(** The world of tenant 7 with the given faults of the persistence layer
    and the given gateway. *)
Definition worldAt (i : Invoice.t) (c : Company.t) (fs : list bool)
    (create : PaymentData -> GatewayAnswer (option GatewayPayment)) : World :=
  mkWorld {[ 42 := i ]} {[ 7 := c ]} {[ 1 := basic ]}
    (utc 2024 5 20 12 0) saoPaulo fs [] approvedGet create [] [] [] [].

Definition gatewayDown : PaymentData -> GatewayAnswer (option GatewayPayment) :=
  fun _ => Rejects (mkExn "Service unavailable" None (Some 503)).

Definition gatewayEmpty : PaymentData -> GatewayAnswer (option GatewayPayment) :=
  fun _ => Resolves (Some (mkGatewayPayment None None)).

Definition createPending : CreateRequest := mkCreateRequest (Some 7) (Number 42).

(** A company whose stored due date is not a date. *)
Definition undated : Company.t :=
  Company.mk 1 "financeiro@acme.example" "Acme" (Some "12345678901") None.

(** A gateway on which every payment is still pending. *)
Definition pendingGet : Z -> GatewayAnswer PaymentInfo :=
  fun _ => Resolves (mkPaymentInfo "pending" (Some 42)).

(** An approved payment has nothing to confirm in the world [w]: it carries
    no external reference, or the reference is the key of no invoice, or the
    invoice is not paid and its company is not stored. *)
Definition noTarget (w : World) (reference : option Z) : Prop :=
  match reference with
  | None => True
  | Some k =>
      match invoices w !! k with
      | None => True
      | Some invoice =>
          Invoice.status invoice <> "paid"
          /\ companies w !! Invoice.companyId invoice = None
      end
  end.

(** The error [checkPaymentStatus] throws for whatever went wrong. *)
Definition checkFailed : Exn :=
  AppError "Erro ao verificar status do pagamento" 500.

(** What an operation does to the stored invoices: a row is either left as
    it is, or it was not paid, the gateway reports a payment approved that
    refers to it, and it is now marked paid, at the time of the request and
    with the status "approved". *)
Definition settled (w w' : World) : Prop :=
  forall k,
    invoices w' !! k = invoices w !! k
    \/ exists id invoice,
         approvedFor w id k invoice
         /\ Invoice.status invoice <> "paid"
         /\ invoices w' !! k = Some (asPaid invoice (now w) "approved").

(** What an operation does to the stored companies, with its reason: a row
    is either left as it is, or the gateway reports a payment approved for
    an invoice of the company that is not paid, and the row gets the
    extension of its due date. *)
Definition renewed (w w' : World) : Prop :=
  forall c,
    companies w' !! c = companies w !! c
    \/ exists id invoiceKey invoice company date,
         approvedFor w id invoiceKey invoice
         /\ Invoice.status invoice <> "paid"
         /\ Invoice.companyId invoice = c
         /\ companies w !! c = Some company
         /\ extendDueDate (zone w) (Company.dueDate company) (now w) = Ok date
         /\ companies w' !! c = Some (withDueDate company date).

(** A world with an approved payment that refers to no stored invoice. *)
Definition strayWorld : World :=
  mkWorld ∅ {[ 7 := acme ]} {[ 1 := basic ]} (utc 2024 5 20 12 0) saoPaulo []
    [] approvedGet pixCreate [] [] [] [].

(** The faults under which the confirmation reads its two rows and writes
    the company, and then fails to write the invoice. *)
Definition invoiceWriteFails : list bool := [false; false; false; true].

(** The world [w] at the later time [t]. *)
Definition at_time (t : Z) (w : World) : World :=
  mkWorld (invoices w) (companies w) (plans w) t (zone w) (faults w)
    (logFaults w) (paymentGet w) (paymentCreate w) (errorLog w) (webhookLog w)
    (emitted w) (created w).

(** A history: operations run one after the other, each at its own time
    of the clock. *)
Fixpoint runHistory (h : list (Z * Operation)) (w : World) : World :=
  match h with
  | [] => w
  | (t, op) :: rest => runHistory rest (runOperation op (at_time t w)).2
  end.

(** Tenant 7 with two pending invoices, 42 and 43, and an approved payment
    for each, 9001 and 9002. *)
Definition twoInvoices : World :=
  mkWorld {[ 42 := pendingInvoice; 43 := pendingInvoice ]} {[ 7 := acme ]}
    {[ 1 := basic ]} (utc 2024 5 20 12 0) saoPaulo [] []
    (fun id => if id =? 9002 then Resolves (mkPaymentInfo "approved" (Some 43))
               else approvedGet id)
    pixCreate [] [] [] [].

Definition paymentCreated : WebhookRequest :=
  mkWebhookRequest (Some "mercadopago")
    (Some (mkWebhookBody (Some (mkWebhookData (Some 9002)))
             (Some "payment.created"))).

(** [error?.response?.status === 401 || error?.response?.status === 403] *)
Definition isAuthFailure (status : option Z) : bool :=
  match status with
  | Some 401 | Some 403 => true
  | _ => false
  end.

(** The number of 401 and 403 among the statuses. *)
Definition authFailures (statuses : list (option Z)) : nat :=
  count_occ Bool.bool_dec (map isAuthFailure statuses) true.

(** A reply that is a body without success. *)
Definition isUnsuccessful (r : Poller.Reply) : Prop :=
  exists company, r = Poller.Data false company.

(** * Properties *)

(** ** The calendar *)
Module JSDateFacts.
Import JSDate.


Lemma DayFromYear_succ y : DayFromYear (y + 1) = DayFromYear y + DaysInYear y.
Proof.
  unfold DayFromYear, DaysInYear, isLeap.
  destruct (Z.eqb_spec (y mod 4) 0), (Z.eqb_spec (y mod 100) 0),
    (Z.eqb_spec (y mod 400) 0); cbn [andb orb negb];
    Z.div_mod_to_equations; lia.
Qed.

Lemma YearFromDay_spec d :
  DayFromYear (YearFromDay d) <= d < DayFromYear (YearFromDay d + 1).
Proof.
  unfold YearFromDay.
  set (y0 := 1970 + 400 * d / 146097).
  assert (H0 : 146097 * (y0 - 1970) <= 400 * d
               < 146097 * (y0 - 1970) + 146097).
  { unfold y0. pose proof (Z.div_mod (400 * d) 146097 ltac:(lia)).
    pose proof (Z.mod_pos_bound (400 * d) 146097 ltac:(lia)). lia. }
  clearbody y0.
  destruct (Z.ltb_spec d (DayFromYear y0)).
  - replace (y0 - 1 + 1) with y0 by lia. split; [|lia].
    unfold DayFromYear in *. Z.div_mod_to_equations; lia.
  - destruct (Z.leb_spec (DayFromYear (y0 + 1)) d); [|lia].
    split; [lia|]. unfold DayFromYear in *. Z.div_mod_to_equations; lia.
Qed.

(** [YearFromDay d] is the only year whose days include [d]. *)
Lemma YearFromDay_unique d y :
  DayFromYear y <= d < DayFromYear (y + 1) -> YearFromDay d = y.
Proof.
  intros Hy. pose proof (YearFromDay_spec d) as Hs.
  assert (Hmono : forall a b, a + 1 <= b -> DayFromYear (a + 1) <= DayFromYear b).
  { intros a b Hab. unfold DayFromYear. Z.div_mod_to_equations; lia. }
  destruct (Z.lt_trichotomy (YearFromDay d) y) as [Hlt | [Heq | Hgt]]; [|done|].
  - pose proof (Hmono (YearFromDay d) y ltac:(lia)). lia.
  - pose proof (Hmono y (YearFromDay d) ltac:(lia)). lia.
Qed.

Lemma leapDays_range y : 0 <= leapDays y <= 1.
Proof. unfold leapDays. destruct (isLeap y); lia. Qed.

Lemma DayWithinYear_range t :
  0 <= DayWithinYear t < 365 + InLeapYear t.
Proof.
  unfold DayWithinYear, InLeapYear, YearFromTime.
  pose proof (YearFromDay_spec (Day t)) as Hs.
  rewrite DayFromYear_succ in Hs. unfold DaysInYear, leapDays in *.
  destruct (isLeap _); lia.
Qed.

Lemma MonthFromTime_range t : 0 <= MonthFromTime t <= 11.
Proof.
  unfold MonthFromTime. cbv zeta.
  repeat match goal with |- context [if ?b then _ else _] => destruct b end; lia.
Qed.

(** The table of [DateFromTime] is "day within the year, less the days
    before the month, plus one". *)
Lemma DateFromTime_monthStart t :
  DateFromTime t
  = DayWithinYear t - monthStart (InLeapYear t) (MonthFromTime t) + 1.
Proof.
  unfold DateFromTime. cbv zeta.
  pose proof (MonthFromTime_range t) as Hm.
  generalize dependent (MonthFromTime t).
  generalize (DayWithinYear t) (InLeapYear t).
  intros d l m Hm.
  assert (Hcases : m = 0 \/ m = 1 \/ m = 2 \/ m = 3 \/ m = 4 \/ m = 5 \/ m = 6
                   \/ m = 7 \/ m = 8 \/ m = 9 \/ m = 10 \/ m = 11) by lia.
  repeat destruct Hcases as [-> | Hcases]; try subst m; cbn [monthStart]; lia.
Qed.

(** The date is a day of its month. *)
Lemma DateFromTime_range t :
  1 <= DateFromTime t <= DaysInMonth (InLeapYear t) (MonthFromTime t).
Proof.
  rewrite DateFromTime_monthStart.
  pose proof (DayWithinYear_range t) as Hd.
  pose proof (leapDays_range (YearFromTime t)) as Hl.
  fold (InLeapYear t) in Hl.
  unfold MonthFromTime. cbv zeta.
  generalize dependent (DayWithinYear t).
  generalize dependent (InLeapYear t).
  intros l Hl d Hd.
  repeat match goal with
         | |- context [if ?a <? ?b then _ else _] =>
             destruct (Z.ltb_spec a b)
         end; cbn [monthStart DaysInMonth]; lia.
Qed.

(** Going from a time value to its year, month and date and back through
    [MakeDay] gives the day number; a date past the end of the month
    counts on into the following months. *)
Lemma MakeDay_fields t k :
  MakeDay (YearFromTime t) (MonthFromTime t) (DateFromTime t + k) = Day t + k.
Proof.
  unfold MakeDay. cbv zeta.
  pose proof (MonthFromTime_range t) as Hm.
  rewrite Z.div_small, Z.mod_small, Z.add_0_r by lia.
  rewrite DateFromTime_monthStart. unfold InLeapYear, DayWithinYear. lia.
Qed.

Lemma Day_TimeWithinDay t : MakeDate (Day t) (TimeWithinDay t) = t.
Proof.
  unfold MakeDate, Day, TimeWithinDay, msPerDay.
  pose proof (Z.div_mod t 86400000 ltac:(lia)). lia.
Qed.

(** [setDate(getDate() + k)] moves the local time by [k] whole days. *)
Lemma setDate_getDate tza t k :
  setDate tza t (getDate tza t + k)
  = TimeClip (UTC tza (LocalTime tza t + k * msPerDay)).
Proof.
  unfold setDate, getDate. cbv zeta. rewrite MakeDay_fields.
  f_equal. f_equal.
  rewrite <- (Day_TimeWithinDay (LocalTime tza t)) at 3.
  unfold MakeDate. lia.
Qed.

Lemma Day_add_days t k : Day (t + k * msPerDay) = Day t + k.
Proof. unfold Day, msPerDay. rewrite Z.div_add by lia. reflexivity. Qed.

(** A date written by [toISODate] reads back as midnight of its day. *)
Lemma parseDateOnly_toISODate t :
  parseDateOnly (toISODate t) = Day t * msPerDay.
Proof.
  unfold parseDateOnly, toISODate, MakeDate. cbn [year month day].
  replace (MonthFromTime t + 1 - 1) with (MonthFromTime t) by lia.
  replace (DateFromTime t) with (DateFromTime t + 0) by lia.
  rewrite MakeDay_fields. lia.
Qed.

Lemma Day_floor t : Day t * msPerDay <= t < Day t * msPerDay + msPerDay.
Proof.
  unfold Day, msPerDay. pose proof (Z.div_mod t 86400000 ltac:(lia)).
  pose proof (Z.mod_pos_bound t 86400000 ltac:(lia)). lia.
Qed.

End JSDateFacts.

(** ** Rules for running handlers *)

Lemma wp_ret {A} (a : A) Q w : Q (Ok a) w -> wp (mret a) Q w.
Proof. exact id. Qed.

Lemma wp_throw {A} (e : Exn) (Q : Result A -> World -> Prop) w :
  Q (Throw e) w -> wp (throw e) Q w.
Proof. exact id. Qed.

Lemma wp_bind {A B} (m : M A) (k : A -> M B) Q w :
  wp m (fun r w' => match r with
                    | Ok a => wp (k a) Q w'
                    | Throw e => Q (Throw e) w'
                    end) w ->
  wp (m ≫= k) Q w.
Proof.
  unfold wp, mbind, M_bind, bind. destruct (m w) as [[a|e] w']; exact id.
Qed.

Lemma wp_try_catch {A} (m : M A) (h : Exn -> M A) Q w :
  wp m (fun r w' => match r with
                    | Ok a => Q (Ok a) w'
                    | Throw e => wp (h e) Q w'
                    end) w ->
  wp (try_catch m h) Q w.
Proof.
  unfold wp, try_catch. destruct (m w) as [[a|e] w']; exact id.
Qed.

Lemma wp_logToFile f msg Q w :
  (hd false (logFaults w) = true ->
   Q (Throw appendFailed) (set_logFaults (tail (logFaults w)) w)) ->
  (hd false (logFaults w) = false ->
   Q (Ok tt)
     (match f with
      | ErrorLog =>
          set_errorLog (errorLog w ++ [(now w, msg)])
            (set_logFaults (tail (logFaults w)) w)
      | WebhookLog =>
          set_webhookLog (webhookLog w ++ [(now w, msg)])
            (set_logFaults (tail (logFaults w)) w)
      end)) ->
  wp (logToFile f msg) Q w.
Proof.
  unfold wp, logToFile. intros Ht Hf. cbv zeta.
  destruct (hd false (logFaults w)); [by apply Ht|].
  destruct f; by apply Hf.
Qed.

Lemma wp_db {A} (op : World -> A * World) Q w :
  (hd false (faults w) = true ->
   Q (Throw (Error "SequelizeDatabaseError")) (set_faults (tail (faults w)) w)) ->
  (hd false (faults w) = false ->
   Q (Ok (op (set_faults (tail (faults w)) w)).1)
     (op (set_faults (tail (faults w)) w)).2) ->
  wp (db op) Q w.
Proof.
  unfold wp, db. intros Ht Hf. destruct (hd false (faults w)); [by apply Ht|].
  destruct (op _) as [a w'']. by apply Hf.
Qed.

Lemma wp_gateway {A} (ans : World -> GatewayAnswer A) Q w :
  (forall a, ans w = Resolves a -> Q (Ok a) w) ->
  (forall e, ans w = Rejects e -> Q (Throw e) w) ->
  wp (gateway ans) Q w.
Proof.
  unfold wp, gateway. intros Hr He. destruct (ans w); [by apply Hr | by apply He].
Qed.

Lemma wp_newDate Q w : Q (Ok (now w)) w -> wp newDate Q w.
Proof. exact id. Qed.

Lemma wp_hostZone Q w : Q (Ok (zone w)) w -> wp hostZone Q w.
Proof. exact id. Qed.

Lemma wp_liftResult {A} (r : Result A) Q w :
  (forall a, r = Ok a -> Q (Ok a) w) ->
  (forall e, r = Throw e -> Q (Throw e) w) ->
  wp (liftResult r) Q w.
Proof.
  unfold wp, liftResult. intros Ho Ht. destruct r; [by apply Ho | by apply Ht].
Qed.

Lemma wp_emit e Q w :
  Q (Ok tt) (set_emitted (emitted w ++ [e]) w) -> wp (emit e) Q w.
Proof. exact id. Qed.

Lemma wp_payment_create d Q w :
  (forall a, paymentCreate w d = Resolves a ->
             Q (Ok a) (set_created (created w ++ [d]) w)) ->
  (forall e, paymentCreate w d = Rejects e ->
             Q (Throw e) (set_created (created w ++ [d]) w)) ->
  wp (payment_create d) Q w.
Proof.
  unfold wp, payment_create, mbind, M_bind, bind, gateway. cbn.
  intros Hr He. destruct (paymentCreate w d); [by apply Hr | by apply He].
Qed.

(** Projections of a world through the setters. *)
Ltac wsimpl :=
  cbn [invoices companies plans now zone faults logFaults paymentGet
       paymentCreate errorLog webhookLog emitted created
       set_invoices set_companies set_faults set_logFaults set_errorLog
       set_webhookLog set_emitted set_created fst snd hd tail] in *.

(** One step of a handler. *)
Ltac wp_step :=
  lazymatch goal with
  | |- wp (mbind _ _) _ _ => apply wp_bind
  | |- wp (try_catch _ _) _ _ => apply wp_try_catch
  | |- wp (mret _) _ _ => apply wp_ret
  | |- wp (throw _) _ _ => apply wp_throw
  | |- wp (logToFile _ _) _ _ => apply wp_logToFile; intros ?
  | |- wp (db _) _ _ => apply wp_db; intros ?
  | |- wp (gateway _) _ _ => apply wp_gateway; intros ? ?
  | |- wp (payment_create _) _ _ => apply wp_payment_create; intros ? ?
  | |- wp (payment_get _) _ _ => unfold payment_get
  | |- wp newDate _ _ => apply wp_newDate
  | |- wp hostZone _ _ => apply wp_hostZone
  | |- wp (liftResult _) _ _ => apply wp_liftResult; intros ? ?
  | |- wp (emit _) _ _ => apply wp_emit
  | |- wp (Invoices.findByPk _) _ _ => unfold Invoices.findByPk
  | |- wp (Invoices.update _ _) _ _ => unfold Invoices.update
  | |- wp (Companies.findByPk _) _ _ => unfold Companies.findByPk
  | |- wp (Companies.update _ _) _ _ => unfold Companies.update
  | |- wp (Companies.reload _ _) _ _ => unfold Companies.reload
  | |- wp (Plans.findByPk _) _ _ => unfold Plans.findByPk
  | |- wp (findInvoice ?k) _ _ => unfold findInvoice
  | |- wp (schema_validate ?f) _ _ => unfold schema_validate
  | |- wp (match ?x with _ => _ end) _ _ => destruct x eqn:?
  | |- wp (let _ := _ in _) _ _ => cbv zeta
  end; cbv beta iota; wsimpl;
  try match goal with H : false = true |- _ => discriminate H end.

Ltac wp_run := repeat wp_step.

(** States a goal about [(m w).1] and [(m w).2] as a [wp]. *)
Ltac wp_start :=
  match goal with
  | |- context [snd (?m ?w)] =>
      pattern ((m w).1), ((m w).2);
      match goal with |- ?Q _ _ => change (wp m Q w) end
  | |- context [fst (?m ?w)] =>
      pattern ((m w).1), ((m w).2);
      match goal with |- ?Q _ _ => change (wp m Q w) end
  end.

(** The rules for the run in which a call succeeds. *)
Lemma wp_gateway_resolves {A} (ans : World -> GatewayAnswer A) a Q w :
  ans w = Resolves a -> Q (Ok a) w -> wp (gateway ans) Q w.
Proof. unfold wp, gateway. by intros ->. Qed.

Lemma wp_db_ok {A} (op : World -> A * World) Q w :
  hd false (faults w) = false ->
  Q (Ok (op (set_faults (tail (faults w)) w)).1)
    (op (set_faults (tail (faults w)) w)).2 ->
  wp (db op) Q w.
Proof. intros Hf HQ. apply wp_db; [congruence | done]. Qed.

Lemma wp_liftResult_ok {A} (r : Result A) a Q w :
  r = Ok a -> Q (Ok a) w -> wp (liftResult r) Q w.
Proof. unfold wp, liftResult. by intros ->. Qed.

Lemma wp_logToFile_ok f msg Q w :
  hd false (logFaults w) = false ->
  Q (Ok tt)
    (match f with
     | ErrorLog =>
         set_errorLog (errorLog w ++ [(now w, msg)])
           (set_logFaults (tail (logFaults w)) w)
     | WebhookLog =>
         set_webhookLog (webhookLog w ++ [(now w, msg)])
           (set_logFaults (tail (logFaults w)) w)
     end) ->
  wp (logToFile f msg) Q w.
Proof. intros Hf HQ. apply wp_logToFile; [congruence | done]. Qed.

(** A step of a handler along the path that the hypotheses single out:
    the scrutinee of a [match] is rewritten with a hypothesis about it, a
    call of the gateway takes the answer a hypothesis gives, and a call to
    the persistence layer or an append to a log succeeds when the world has
    no fault for it. *)
Ltac wp_follow :=
  lazymatch goal with
  | |- wp (payment_get _) _ _ => unfold payment_get
  | |- wp (logToFile _ _) _ _ =>
      apply wp_logToFile_ok; [wsimpl; first [assumption | reflexivity]|]
  | |- wp (gateway _) _ _ =>
      eapply wp_gateway_resolves; [wsimpl; eassumption|]
  | |- wp (db _) _ _ => apply wp_db_ok; [wsimpl; first [assumption | reflexivity]|]
  | |- wp (liftResult _) _ _ => eapply wp_liftResult_ok; [wsimpl; eassumption|]
  | |- wp (match ?x with _ => _ end) _ _ =>
      match goal with
      | H : x = _ |- _ => rewrite H
      end
  | |- _ => wp_step
  end; cbv beta iota; wsimpl.

(** A failed append is a fault the world holds for the log. *)
Lemma hd_true_In (l : list bool) : hd false l = true -> In true l.
Proof. destruct l as [|b l]; [discriminate|]. cbn. intros ->. by left. Qed.

Lemma In_tail {A} (x : A) (l : list A) : In x (tail l) -> In x l.
Proof. destruct l; [done|]. cbn. by right. Qed.

Ltac log_fault :=
  match goal with
  | H : hd false _ = true |- In true _ =>
      apply hd_true_In in H; repeat apply In_tail in H; exact H
  end.

(** ** Subscription extension *)
Section Extension.
Import JSDate JSDateFacts.

Lemma baseDate_max D N : baseDate (Some D) N = Some (Z.max D N).
Proof.
  unfold baseDate. destruct (Z.ltb_spec D N); f_equal; lia.
Qed.

(** An Invalid Date as due date makes [toISOString] throw. *)
Lemma extendDueDate_invalid tza N :
  extendDueDate tza None N = Throw (Error "RangeError: Invalid time value").
Proof. reflexivity. Qed.

(** What the block computes on any host: thirty days are added on the
    local clock, and the date is read off in UTC. *)
Lemma extendDueDate_local tza D N :
  extendDueDate tza (Some D) N
  = match TimeClip (UTC tza (LocalTime tza (Z.max D N) + 30 * msPerDay)) with
    | Some t => Ok (toISODate t)
    | None => Throw (Error "RangeError: Invalid time value")
    end.
Proof.
  unfold extendDueDate. cbv zeta. rewrite baseDate_max, setDate_getDate.
  reflexivity.
Qed.

(** The instant the new due date is read from, when there is one. *)
Lemma extendDueDate_Ok tza dueDate N date :
  extendDueDate tza dueDate N = Ok date ->
  exists D,
    dueDate = Some D
    /\ date = toISODate (UTC tza (LocalTime tza (Z.max D N) + 30 * msPerDay)).
Proof.
  destruct dueDate as [D|]; [|discriminate].
  rewrite extendDueDate_local. unfold TimeClip.
  destruct (_ <=? _); [|discriminate].
  intros [= <-]. eauto.
Qed.

(** The due date written is later than the one read, on any host whose
    offsets stay within a day. *)
Lemma extendDueDate_later tza D N date :
  zoneWithinADay tza ->
  extendDueDate tza (Some D) N = Ok date ->
  D <= parseDateOnly date.
Proof.
  intros Hz H. apply extendDueDate_Ok in H as (D' & [= <-] & ->).
  rewrite parseDateOnly_toISODate. unfold UTC, LocalTime.
  set (b := Z.max D N).
  set (u := b + tza b true + 30 * msPerDay).
  pose proof (Hz b true) as H1. pose proof (Hz u false) as H2.
  pose proof (Day_floor (u - tza u false)) as Hf.
  assert (D <= b) by lia. unfold msPerDay in *. lia.
Qed.

(** With the same offset from UTC at [max D N] and thirty days later on the
    local clock, a due date that is written is the day of [max D N] plus
    thirty days. *)
Lemma extendDueDate_unshifted tza D N date :
  tza (LocalTime tza (Z.max D N) + 30 * msPerDay) false = tza (Z.max D N) true ->
  extendDueDate tza (Some D) N = Ok date ->
  date = toISODate (Z.max D N + 30 * msPerDay)
  /\ parseDateOnly date = (Day (Z.max D N) + 30) * msPerDay.
Proof.
  intros Hzone H. apply extendDueDate_Ok in H as (D' & [= <-] & ->).
  unfold UTC. rewrite Hzone. unfold LocalTime.
  replace (Z.max D N + tza (Z.max D N) true + 30 * msPerDay
           - tza (Z.max D N) true)
    with (Z.max D N + 30 * msPerDay) by lia.
  split; [reflexivity|].
  rewrite parseDateOnly_toISODate, Day_add_days. reflexivity.
Qed.

(** C1 (amended): for every valid due date [D] and current time [N], on a
    host whose offset from UTC is the same at [max D N] and thirty days
    later on its local clock (any zone of fixed offset), and within the
    range of time values, the new due date is [max D N] plus 30 days cut
    down to its UTC calendar day, the day thirty days after the day of
    [max D N]. *)
Theorem extendDueDate_max_plus_30 tza D N :
  tza (LocalTime tza (Z.max D N) + 30 * msPerDay) false = tza (Z.max D N) true ->
  Z.abs (Z.max D N + 30 * msPerDay) <= maxTime ->
  extendDueDate tza (Some D) N = Ok (toISODate (Z.max D N + 30 * msPerDay))
  /\ parseDateOnly (toISODate (Z.max D N + 30 * msPerDay))
     = (Day (Z.max D N) + 30) * msPerDay.
Proof.
  intros Hzone Hrange. split.
  - rewrite extendDueDate_local. unfold UTC at 1. rewrite Hzone.
    unfold LocalTime.
    replace (Z.max D N + tza (Z.max D N) true + 30 * msPerDay
             - tza (Z.max D N) true)
      with (Z.max D N + 30 * msPerDay) by lia.
    unfold TimeClip. apply Z.leb_le in Hrange. rewrite Hrange. reflexivity.
  - rewrite parseDateOnly_toISODate, Day_add_days. reflexivity.
Qed.

End Extension.

(** The two examples of the specification, on a host in Sao Paulo:
    due 2024-01-10 and paid on 2024-01-05 gives 2024-02-09; due 2024-01-01
    and paid on 2024-03-01 gives 2024-03-31. *)
Lemma extendDueDate_examples :
  extendDueDate saoPaulo (Some (utc 2024 1 10 0 0)) (utc 2024 1 5 15 30)
  = Ok (JSDate.mkCivil 2024 2 9)
  /\ extendDueDate saoPaulo (Some (utc 2024 1 1 0 0)) (utc 2024 3 1 15 30)
     = Ok (JSDate.mkCivil 2024 3 31).
Proof.
  split.
  - pose proof (proj1 (extendDueDate_max_plus_30 saoPaulo (utc 2024 1 10 0 0)
                         (utc 2024 1 5 15 30) eq_refl
                         ltac:(vm_compute; discriminate))) as H.
    vm_compute in H. vm_compute. exact H.
  - pose proof (proj1 (extendDueDate_max_plus_30 saoPaulo (utc 2024 1 1 0 0)
                         (utc 2024 3 1 15 30) eq_refl
                         ltac:(vm_compute; discriminate))) as H.
    vm_compute in H. vm_compute. exact H.
Defined.

(** C1 as stated fails on a host in New York: paying at 2024-03-01 00:30 UTC
    (19:30 of 29 February on the local clock) moves the local clock to
    19:30 of 30 March, by then on daylight saving time, which is 23:30 UTC
    of 30 March; thirty days after the payment it is 31 March in UTC. *)
Lemma extendDueDate_new_york :
  extendDueDate newYork (Some (utc 2024 1 1 0 0)) (utc 2024 3 1 0 30)
  = Ok (JSDate.mkCivil 2024 3 30)
  /\ JSDate.toISODate
       (Z.max (utc 2024 1 1 0 0) (utc 2024 3 1 0 30) + 30 * JSDate.msPerDay)
     = JSDate.mkCivil 2024 3 31
  /\ extendDueDate newYork (Some (utc 2024 1 1 0 0)) (utc 2024 3 1 0 30)
     <> Ok (JSDate.toISODate
              (Z.max (utc 2024 1 1 0 0) (utc 2024 3 1 0 30)
               + 30 * JSDate.msPerDay)).
Proof.
  split; [vm_compute; reflexivity |].
  split; [vm_compute; reflexivity | vm_compute; discriminate].
Qed.

(** ** The webhook *)

Lemma approved_info info k :
  String.eqb (pi_status info) "approved" = true ->
  pi_external_reference info = Some k ->
  info = mkPaymentInfo "approved" (Some k).
Proof.
  destruct info as [s r]. cbn. intros Hs ->. apply String.eqb_eq in Hs.
  by subst.
Qed.

Lemma notifies_intro req reqBody data id :
  wr_body req = Some reqBody ->
  negb (isMercadoPago (wr_type req)) = false ->
  isPaymentAction (wb_action reqBody) = true ->
  wb_data reqBody = Some data ->
  truthy (wd_id data) = Some id ->
  notifies req id.
Proof.
  intros Hb Ht Ha Hd Hi. split; [by apply negb_false_iff in Ht | eauto 6].
Qed.

Lemma eqb_string_refl s t : s = t -> String.eqb s t = true.
Proof. intros ->. apply String.eqb_refl. Qed.

(** C3 (amended): a webhook request has one of three outcomes, whatever
    happens inside, errors of the gateway or of the persistence layer
    included.  It is answered with HTTP 200 and [{ok: true}]; or, for a
    notification of an approved payment whose invoice is already paid, with
    HTTP 200 and [{status: "approved", success: true, message: "Pagamento já
    foi processado anteriormente!"}]; or an append to webhook.log has
    failed and the error of the append is thrown, with no answer sent by
    the handler.  So with every append succeeding the answer is always a
    200 with one of the two bodies; and it is the second body for every
    notification of an approved payment whose invoice is found paid. *)
Theorem webhook_always_200 req w :
  ((webhook req w).1 = Ok (mkResponse 200 OkTrue)
   \/ ((webhook req w).1
       = Ok (mkResponse 200
               (StatusBody "approved" None true
                  (Some "Pagamento já foi processado anteriormente!")))
       /\ exists id invoiceKey invoice,
            notifies req id
            /\ approvedFor w id invoiceKey invoice
            /\ Invoice.status invoice = "paid")
   \/ ((webhook req w).1 = Throw appendFailed /\ In true (logFaults w)))
  /\ (forall id invoiceKey invoice,
        hd false (faults w) = false ->
        logFaults w = [] ->
        notifies req id ->
        approvedFor w id invoiceKey invoice ->
        Invoice.status invoice = "paid" ->
        (webhook req w).1
        = Ok (mkResponse 200
                (StatusBody "approved" None true
                   (Some "Pagamento já foi processado anteriormente!")))).
Proof.
  split.
  - wp_start. unfold webhook. wp_run.
    all: try (left; reflexivity).
    all: try (right; right; split; [reflexivity | log_fault]).
    match goal with
    | Hs : String.eqb (pi_status ?a) _ = true,
      Hr : pi_external_reference ?a = Some _ |- _ =>
        pose proof (approved_info _ _ Hs Hr) as ->
    end.
    right; left. split; [reflexivity|].
    do 3 eexists. split; [by eapply notifies_intro|].
    split; [by split | by apply String.eqb_eq].
  - intros id invoiceKey invoice Hf Hl
      (Hmp & reqBody & data & Hb & Ha & Hd & Hi) [Hget Hinv] Hpaid.
    apply eqb_string_refl in Hpaid.
    assert (Hneg : negb (isMercadoPago (wr_type req)) = false)
      by by rewrite Hmp.
    destruct w as [inv co pl nw zn fl lf pg pc el wl em cr].
    cbn in Hf, Hl, Hget, Hinv. subst lf.
    wp_start. unfold webhook.
    repeat wp_follow.
    cbn [pi_status pi_external_reference String.eqb Ascii.eqb Bool.eqb].
    cbv beta iota. repeat wp_follow. done.
Qed.

Lemma webhook_always_200_witness :
  (webhook paymentUpdated paidWorld).1
  = Ok (mkResponse 200
          (StatusBody "approved" None true
             (Some "Pagamento já foi processado anteriormente!"))).
Proof.
  apply (proj2 (webhook_always_200 paymentUpdated paidWorld) 9001 42
           paidInvoice).
  - reflexivity.
  - reflexivity.
  - split; [reflexivity|]. do 2 eexists. repeat split; reflexivity.
  - split; [reflexivity | vm_compute; reflexivity].
  - reflexivity.
Defined.

(** C3 as stated fails on a notification for an approved payment whose
    invoice is already paid: the body is not [{ok: true}]. *)
Lemma webhook_paid_invoice_body :
  (webhook paymentUpdated paidWorld).1
  = Ok (mkResponse 200
          (StatusBody "approved" None true
             (Some "Pagamento já foi processado anteriormente!")))
  /\ (webhook paymentUpdated paidWorld).1 <> Ok (mkResponse 200 OkTrue).
Proof.
  split; [vm_compute; reflexivity | vm_compute; discriminate].
Qed.

(** The third outcome is real: when webhook.log cannot be appended to, the
    first append throws, the append of the [catch] block throws again, and
    the request gets no 200 from the handler; when only the first append
    fails, the [catch] block answers [{ok: true}]. *)
Lemma webhook_append_fails :
  (webhook paymentUpdated (diskFull pendingWorld)).1 = Throw appendFailed
  /\ (webhook paymentUpdated (set_logFaults [true] pendingWorld)).1
     = Ok (mkResponse 200 OkTrue)
  /\ sameData pendingWorld
       (webhook paymentUpdated (set_logFaults [true] pendingWorld)).2.
Proof.
  split; [vm_compute; reflexivity|].
  split; [vm_compute; reflexivity|].
  vm_compute. done.
Qed.

(** ** Frames *)

(** The creation endpoint leaves the stored rows and the socket alone. *)
Lemma createSubscription_frame req w :
  invoices (createSubscription req w).2 = invoices w
  /\ companies (createSubscription req w).2 = companies w
  /\ emitted (createSubscription req w).2 = emitted w.
Proof.
  wp_start. unfold createSubscription. wp_run; done.
Qed.

(** C10: [createSubscription] never writes to the Invoice and Company
    records, on any path: the stored invoices and companies after the
    request are the ones before it. *)
Theorem createSubscription_reads_only req w :
  invoices (createSubscription req w).2 = invoices w
  /\ companies (createSubscription req w).2 = companies w.
Proof.
  wp_start. unfold createSubscription. wp_run; done.
Qed.

Lemma extended_refl w w' : companies w' = companies w -> extended w w'.
Proof. intros H k. left. by rewrite H. Qed.

Lemma extended_insert w w' key company date :
  companies w !! key = Some company ->
  extendDueDate (zone w) (Company.dueDate company) (now w) = Ok date ->
  companies w' = <[key := withDueDate company date]> (companies w) ->
  extended w w'.
Proof.
  intros Hc Hd Hw k. rewrite Hw. destruct (decide (k = key)) as [->|Hne].
  - right. exists company, date. by rewrite lookup_insert_eq.
  - left. by rewrite lookup_insert_ne.
Qed.

Lemma webhook_extended req w : extended w (webhook req w).2.
Proof.
  wp_start. unfold webhook. wp_run.
  all: try (by apply extended_refl).
  all: by eapply extended_insert.
Qed.

Lemma checkPaymentStatus_extended paymentId w :
  extended w (checkPaymentStatus paymentId w).2.
Proof.
  wp_start. unfold checkPaymentStatus. wp_run.
  all: try (by apply extended_refl).
  all: by eapply extended_insert.
Qed.

Lemma runOperation_extended op w : extended w (runOperation op w).2.
Proof.
  destruct op as [req | req | paymentId]; cbn [runOperation].
  - apply extended_refl, createSubscription_frame.
  - apply webhook_extended.
  - apply checkPaymentStatus_extended.
Qed.

(** C6 (amended): under every operation of the feature, run on a host
    whose offsets from UTC stay within a day, the due date of every company
    only moves forward.  The row of a company is left as it is, or its due
    date, and nothing else of it, is replaced by the result of the extension
    computation on the due date it had and the time of the request, which is
    not earlier; and when the offset of the host is the same at
    [max D now] and thirty days later on its local clock, the date written
    is [max D now] plus 30 days, cut down to its UTC calendar day. *)
Theorem dueDate_monotone op w k company D :
  zoneWithinADay (zone w) ->
  companies w !! k = Some company ->
  Company.dueDate company = Some D ->
  exists company' D',
    companies (runOperation op w).2 !! k = Some company'
    /\ Company.dueDate company' = Some D'
    /\ D <= D'
    /\ (company' = company
        \/ exists date,
             extendDueDate (zone w) (Some D) (now w) = Ok date
             /\ company'
                = Company.mk (Company.planId company) (Company.email company)
                    (Company.name company) (Company.document company)
                    (Some (JSDate.parseDateOnly date))
             /\ (zone w (JSDate.LocalTime (zone w) (Z.max D (now w))
                         + 30 * JSDate.msPerDay) false
                 = zone w (Z.max D (now w)) true ->
                 date
                 = JSDate.toISODate (Z.max D (now w) + 30 * JSDate.msPerDay)
                 /\ D' = (JSDate.Day (Z.max D (now w)) + 30)
                         * JSDate.msPerDay)).
Proof.
  intros Hz Hc HD.
  destruct (runOperation_extended op w k) as [-> | (c & date & Hc' & Hd & ->)].
  - exists company, D. repeat split; [done | done | lia | by left].
  - rewrite Hc in Hc'. injection Hc' as <-. rewrite HD in Hd.
    exists (withDueDate company date), (JSDate.parseDateOnly date).
    split; [reflexivity|]. split; [reflexivity|].
    split; [by eapply extendDueDate_later|].
    right. exists date. split; [exact Hd|]. split; [reflexivity|].
    intros Hsame.
    exact (extendDueDate_unshifted (zone w) D (now w) date Hsame Hd).
Qed.

Lemma dueDate_monotone_witness :
  exists company' D',
    companies (runOperation (CheckPaymentStatus 9001) pendingWorld).2 !! 7
    = Some company'
    /\ Company.dueDate company' = Some D'
    /\ utc 2024 6 1 0 0 <= D'
    /\ (company' = acme
        \/ exists date,
             extendDueDate (zone pendingWorld) (Some (utc 2024 6 1 0 0))
               (now pendingWorld) = Ok date
             /\ company'
                = Company.mk (Company.planId acme) (Company.email acme)
                    (Company.name acme) (Company.document acme)
                    (Some (JSDate.parseDateOnly date))
             /\ (zone pendingWorld
                   (JSDate.LocalTime (zone pendingWorld)
                      (Z.max (utc 2024 6 1 0 0) (now pendingWorld))
                    + 30 * JSDate.msPerDay) false
                 = zone pendingWorld
                     (Z.max (utc 2024 6 1 0 0) (now pendingWorld)) true ->
                 date
                 = JSDate.toISODate
                     (Z.max (utc 2024 6 1 0 0) (now pendingWorld)
                      + 30 * JSDate.msPerDay)
                 /\ D' = (JSDate.Day
                            (Z.max (utc 2024 6 1 0 0) (now pendingWorld)) + 30)
                         * JSDate.msPerDay)).
Proof.
  apply (dueDate_monotone (CheckPaymentStatus 9001) pendingWorld 7 acme
           (utc 2024 6 1 0 0)).
  - intros t isUTC. vm_compute. discriminate.
  - vm_compute. reflexivity.
  - reflexivity.
Defined.

(** C6 as stated fails on a host in New York, whose offsets are within a
    day: the poll, run at 00:30 UTC of 2024-03-01 for a company due since
    2024-01-01, writes 2024-03-30 as due date, while [max D now] plus 30
    days is 00:30 UTC of 2024-03-31, a day of which the date written is not
    the start. *)
Lemma dueDate_write_new_york :
  zoneWithinADay (zone newYorkWorld)
  /\ companies newYorkWorld !! 7 = Some lapsed
  /\ Company.dueDate lapsed = Some (utc 2024 1 1 0 0)
  /\ Company.dueDate
     <$> companies (runOperation (CheckPaymentStatus 9001) newYorkWorld).2 !! 7
     = Some (Some (utc 2024 3 30 0 0))
  /\ Z.max (utc 2024 1 1 0 0) (now newYorkWorld) + 30 * JSDate.msPerDay
     = utc 2024 3 31 0 30
  /\ JSDate.parseDateOnly
       (JSDate.toISODate
          (Z.max (utc 2024 1 1 0 0) (now newYorkWorld) + 30 * JSDate.msPerDay))
     = utc 2024 3 31 0 0
  /\ utc 2024 3 30 0 0 <> utc 2024 3 31 0 0.
Proof.
  split.
  { intros t isUTC. cbn [zone newYorkWorld]. unfold newYork.
    destruct isUTC; destruct (_ <? _); vm_compute; discriminate. }
  split; [vm_compute; reflexivity|].
  split; [reflexivity|].
  split; [vm_compute; reflexivity|].
  split; [vm_compute; reflexivity|].
  split; [vm_compute; reflexivity|].
  vm_compute. discriminate.
Qed.

(** ** Confirmation of a payment whose invoice is paid already *)

Lemma checkPaymentStatus_paid w id invoiceKey invoice :
  hd false (faults w) = false ->
  approvedFor w id invoiceKey invoice ->
  Invoice.status invoice = "paid" ->
  (checkPaymentStatus id w).1 = previouslyProcessed
  /\ invoices (checkPaymentStatus id w).2 = invoices w
  /\ companies (checkPaymentStatus id w).2 = companies w
  /\ emitted (checkPaymentStatus id w).2 = emitted w
  /\ paymentGet (checkPaymentStatus id w).2 = paymentGet w
  /\ faults (checkPaymentStatus id w).2 = tail (faults w)
  /\ logFaults (checkPaymentStatus id w).2 = logFaults w.
Proof.
  intros Hf [Hget Hinv] Hpaid. apply eqb_string_refl in Hpaid.
  wp_start. unfold checkPaymentStatus.
  repeat wp_follow.
  cbn [pi_status pi_external_reference String.eqb Ascii.eqb Bool.eqb].
  cbv beta iota. repeat wp_follow. done.
Qed.

Lemma webhook_paid req w id invoiceKey invoice :
  hd false (faults w) = false ->
  logFaults w = [] ->
  notifies req id ->
  approvedFor w id invoiceKey invoice ->
  Invoice.status invoice = "paid" ->
  (webhook req w).1 = previouslyProcessed
  /\ invoices (webhook req w).2 = invoices w
  /\ companies (webhook req w).2 = companies w
  /\ emitted (webhook req w).2 = emitted w
  /\ paymentGet (webhook req w).2 = paymentGet w
  /\ faults (webhook req w).2 = tail (faults w)
  /\ logFaults (webhook req w).2 = logFaults w.
Proof.
  intros Hf Hl (Hmp & reqBody & data & Hb & Ha & Hd & Hi) [Hget Hinv] Hpaid.
  apply eqb_string_refl in Hpaid.
  assert (Hneg : negb (isMercadoPago (wr_type req)) = false) by by rewrite Hmp.
  destruct w as [inv co pl nw zn fl lf pg pc el wl em cr].
  cbn in Hf, Hl, Hget, Hinv. subst lf.
  wp_start. unfold webhook.
  repeat wp_follow.
  cbn [pi_status pi_external_reference String.eqb Ascii.eqb Bool.eqb].
  cbv beta iota. repeat wp_follow. done.
Qed.

Lemma confirm_paid e req w id invoiceKey invoice :
  hd false (faults w) = false ->
  logWritable e w ->
  notifies req id ->
  approvedFor w id invoiceKey invoice ->
  Invoice.status invoice = "paid" ->
  (confirm e req id w).1 = previouslyProcessed
  /\ invoices (confirm e req id w).2 = invoices w
  /\ companies (confirm e req id w).2 = companies w
  /\ emitted (confirm e req id w).2 = emitted w
  /\ paymentGet (confirm e req id w).2 = paymentGet w
  /\ faults (confirm e req id w).2 = tail (faults w)
  /\ logFaults (confirm e req id w).2 = logFaults w.
Proof.
  intros Hf Hl Hn Ha Hp. destruct e; cbn [confirm logWritable] in *.
  - by eapply checkPaymentStatus_paid.
  - by eapply webhook_paid.
Qed.

(** C4: for an approved payment whose invoice is already paid, the
    confirmation logic, entered by the poll or by the webhook, answers 200
    with [{status: "approved", success: true, message: "Pagamento já foi
    processado anteriormente!"}] and leaves the due dates, the invoices and
    the socket as they were; so does a second run after it.  The persistence
    layer is taken to work, and so are the appends of the webhook to its
    log. *)
Theorem confirmation_idempotent e1 e2 req w id invoiceKey invoice :
  faults w = [] ->
  logWritable e1 w ->
  logWritable e2 w ->
  notifies req id ->
  approvedFor w id invoiceKey invoice ->
  Invoice.status invoice = "paid" ->
  (confirm e1 req id w).1
  = Ok (mkResponse 200
          (StatusBody "approved" None true
             (Some "Pagamento já foi processado anteriormente!")))
  /\ companies (confirm e1 req id w).2 = companies w
  /\ (confirm e2 req id (confirm e1 req id w).2).1
     = Ok (mkResponse 200
             (StatusBody "approved" None true
                (Some "Pagamento já foi processado anteriormente!")))
  /\ companies (confirm e2 req id (confirm e1 req id w).2).2 = companies w
  /\ invoices (confirm e2 req id (confirm e1 req id w).2).2 = invoices w
  /\ emitted (confirm e2 req id (confirm e1 req id w).2).2 = emitted w.
Proof.
  intros Hf Hl1 Hl2 Hn Ha Hp.
  assert (Hhd : hd false (faults w) = false) by by rewrite Hf.
  destruct (confirm_paid e1 req w id invoiceKey invoice Hhd Hl1 Hn Ha Hp)
    as (Hr1 & Hi1 & Hc1 & He1 & Hg1 & Hf1 & Hlf1).
  set (w1 := (confirm e1 req id w).2) in *.
  assert (Hhd1 : hd false (faults w1) = false) by by rewrite Hf1, Hf.
  assert (Hl2' : logWritable e2 w1).
  { destruct e2; [exact I|]. cbn [logWritable] in *. by rewrite Hlf1. }
  assert (Ha1 : approvedFor w1 id invoiceKey invoice).
  { destruct Ha as [Hget Hinv]. split; [by rewrite Hg1 | by rewrite Hi1]. }
  destruct (confirm_paid e2 req w1 id invoiceKey invoice Hhd1 Hl2' Hn Ha1 Hp)
    as (Hr2 & Hi2 & Hc2 & He2 & _).
  split; [exact Hr1|]. split; [exact Hc1|]. split; [exact Hr2|].
  repeat split; congruence.
Qed.

Lemma confirmation_idempotent_witness :
  (confirm Hook paymentUpdated 9001 paidWorld).1
  = Ok (mkResponse 200
          (StatusBody "approved" None true
             (Some "Pagamento já foi processado anteriormente!")))
  /\ companies (confirm Hook paymentUpdated 9001 paidWorld).2
     = companies paidWorld
  /\ (confirm Poll paymentUpdated 9001
        (confirm Hook paymentUpdated 9001 paidWorld).2).1
     = Ok (mkResponse 200
             (StatusBody "approved" None true
                (Some "Pagamento já foi processado anteriormente!")))
  /\ companies (confirm Poll paymentUpdated 9001
                  (confirm Hook paymentUpdated 9001 paidWorld).2).2
     = companies paidWorld
  /\ invoices (confirm Poll paymentUpdated 9001
                 (confirm Hook paymentUpdated 9001 paidWorld).2).2
     = invoices paidWorld
  /\ emitted (confirm Poll paymentUpdated 9001
                (confirm Hook paymentUpdated 9001 paidWorld).2).2
     = emitted paidWorld.
Proof.
  apply (confirmation_idempotent Hook Poll paymentUpdated paidWorld 9001 42
           paidInvoice).
  - reflexivity.
  - reflexivity.
  - exact I.
  - split; [reflexivity|]. do 2 eexists. repeat split; reflexivity.
  - split; [reflexivity | vm_compute; reflexivity].
  - reflexivity.
Defined.

(** ** The real-time event *)

Lemma checkPaymentStatus_emitted paymentId w :
  emitted (checkPaymentStatus paymentId w).2 = emitted w.
Proof.
  wp_start. unfold checkPaymentStatus. wp_run; done.
Qed.

Lemma eqb_string_neq s t : s <> t -> String.eqb s t = false.
Proof. apply String.eqb_neq. Qed.

(** C9: the event named [company-{companyId}-payment], with the action
    "CONCLUIDA" and the company, is never emitted by [checkPaymentStatus];
    [webhook] emits at most one event, this one, and when it does the
    notification was for an approved payment of an invoice not yet paid,
    the company in the event and in the store has the extended due date and
    the invoice is now paid; and a notification of that kind, with the
    persistence layer and the appends to the log working, does emit it. *)
Theorem payment_event_only_from_webhook :
  (forall paymentId w, emitted (checkPaymentStatus paymentId w).2 = emitted w)
  /\ (forall req w,
        emitted (webhook req w).2 = emitted w
        \/ exists id invoiceKey invoice company date,
             notifies req id
             /\ approvedFor w id invoiceKey invoice
             /\ Invoice.status invoice <> "paid"
             /\ companies w !! Invoice.companyId invoice = Some company
             /\ extendDueDate (zone w) (Company.dueDate company) (now w)
                = Ok date
             /\ emitted (webhook req w).2
                = emitted w
                    ++ [mkSocketEvent
                          ("company-" +:+ pretty (Invoice.companyId invoice)
                             +:+ "-payment")
                          "CONCLUIDA"
                          (Invoice.companyId invoice,
                           Company.mk (Company.planId company)
                             (Company.email company) (Company.name company)
                             (Company.document company)
                             (Some (JSDate.parseDateOnly date)))]
             /\ companies (webhook req w).2 !! Invoice.companyId invoice
                = Some (Company.mk (Company.planId company)
                          (Company.email company) (Company.name company)
                          (Company.document company)
                          (Some (JSDate.parseDateOnly date)))
             /\ invoices (webhook req w).2 !! invoiceKey
                = Some (Invoice.mk (Invoice.companyId invoice)
                          (Invoice.value invoice) "paid" (Some (now w))
                          (Some "approved")))
  /\ (forall req w id invoiceKey invoice company date,
        faults w = [] ->
        logFaults w = [] ->
        notifies req id ->
        approvedFor w id invoiceKey invoice ->
        Invoice.status invoice <> "paid" ->
        companies w !! Invoice.companyId invoice = Some company ->
        extendDueDate (zone w) (Company.dueDate company) (now w) = Ok date ->
        emitted (webhook req w).2
        = emitted w
            ++ [mkSocketEvent
                  ("company-" +:+ pretty (Invoice.companyId invoice)
                     +:+ "-payment")
                  "CONCLUIDA"
                  (Invoice.companyId invoice,
                   Company.mk (Company.planId company)
                     (Company.email company) (Company.name company)
                     (Company.document company)
                     (Some (JSDate.parseDateOnly date)))]).
Proof.
  split; [exact checkPaymentStatus_emitted | split].
  - intros req w. wp_start. unfold webhook. wp_run.
    all: try (left; reflexivity).
    all: match goal with
         | Hs : String.eqb (pi_status ?a) _ = true,
           Hr : pi_external_reference ?a = Some _ |- _ =>
             pose proof (approved_info _ _ Hs Hr) as ->
         end.
    all: right; do 5 eexists.
    all: split; [by eapply notifies_intro|].
    all: split; [by split|].
    all: split; [by apply String.eqb_neq|].
    all: split; [eassumption|]; split; [eassumption|].
    all: rewrite !lookup_insert_eq; cbn [default pi_status]; done.
  - intros req w id invoiceKey invoice company date
      Hf Hl (Hmp & reqBody & data & Hb & Ha & Hd & Hi) [Hget Hinv] Hpaid Hc He.
    apply eqb_string_neq in Hpaid.
    assert (Hneg : negb (isMercadoPago (wr_type req)) = false) by by rewrite Hmp.
    destruct w as [inv co pl nw zn fl lf pg pc el wl em cr].
    cbn in Hf, Hl, Hget, Hinv, Hc, He. subst fl lf.
    wp_start. unfold webhook.
    repeat wp_follow.
    cbn [pi_status pi_external_reference String.eqb Ascii.eqb Bool.eqb].
    cbv beta iota. repeat wp_follow.
    rewrite lookup_insert_eq. reflexivity.
Qed.

Lemma payment_event_witness :
  emitted (webhook paymentUpdated pendingWorld).2
  = [mkSocketEvent "company-7-payment" "CONCLUIDA"
       (7, Company.mk 1 "financeiro@acme.example" "Acme" (Some "12345678901")
             (Some (utc 2024 7 1 0 0)))].
Proof.
  assert (Hn : notifies paymentUpdated 9001).
  { split; [reflexivity|]. do 2 eexists. repeat split; reflexivity. }
  assert (Ha : approvedFor pendingWorld 9001 42 pendingInvoice).
  { split; [reflexivity | vm_compute; reflexivity]. }
  assert (Hp : Invoice.status pendingInvoice <> "paid")
    by (vm_compute; discriminate).
  assert (Hc : companies pendingWorld !! Invoice.companyId pendingInvoice
               = Some acme) by (vm_compute; reflexivity).
  assert (He : extendDueDate (zone pendingWorld) (Company.dueDate acme)
                 (now pendingWorld) = Ok (JSDate.mkCivil 2024 7 1))
    by (vm_compute; reflexivity).
  pose proof (proj2 (proj2 payment_event_only_from_webhook) paymentUpdated
                pendingWorld 9001 42 pendingInvoice acme
                (JSDate.mkCivil 2024 7 1) eq_refl eq_refl Hn Ha Hp Hc He) as H.
  vm_compute in H. vm_compute. exact H.
Defined.

(** ** A first confirmation and its repetition *)

(** The first confirmation of an approved payment by the poll, with the
    persistence layer working: the company gets the extended due date, the
    invoice is marked paid, and the answer is a success. *)
Lemma checkPaymentStatus_first w id invoiceKey invoice company date :
  faults w = [] ->
  approvedFor w id invoiceKey invoice ->
  Invoice.status invoice <> "paid" ->
  companies w !! Invoice.companyId invoice = Some company ->
  extendDueDate (zone w) (Company.dueDate company) (now w) = Ok date ->
  (checkPaymentStatus id w).1
  = Ok (json (StatusBody "approved"
                (Some (Invoice.companyId invoice, withDueDate company date))
                true (Some "Pagamento aprovado com sucesso!")))
  /\ companies (checkPaymentStatus id w).2
     = <[Invoice.companyId invoice := withDueDate company date]> (companies w)
  /\ invoices (checkPaymentStatus id w).2
     = <[invoiceKey := asPaid invoice (now w) "approved"]> (invoices w)
  /\ paymentGet (checkPaymentStatus id w).2 = paymentGet w
  /\ faults (checkPaymentStatus id w).2 = []
  /\ logFaults (checkPaymentStatus id w).2 = logFaults w
  /\ plans (checkPaymentStatus id w).2 = plans w.
Proof.
  intros Hf [Hget Hinv] Hpaid Hc He.
  apply eqb_string_neq in Hpaid.
  destruct w as [inv co pl nw zn fl lf pg pc el wl em cr].
  cbn in Hf, Hget, Hinv, Hc, He. subst fl.
  wp_start. unfold checkPaymentStatus. repeat wp_follow.
  cbn [pi_status pi_external_reference String.eqb Ascii.eqb Bool.eqb].
  cbv beta iota. repeat wp_follow.
  rewrite lookup_insert_eq. done.
Qed.

(** The same by the webhook, its appends to the log succeeding. *)
Lemma webhook_first req w id invoiceKey invoice company date :
  faults w = [] ->
  logFaults w = [] ->
  notifies req id ->
  approvedFor w id invoiceKey invoice ->
  Invoice.status invoice <> "paid" ->
  companies w !! Invoice.companyId invoice = Some company ->
  extendDueDate (zone w) (Company.dueDate company) (now w) = Ok date ->
  (webhook req w).1 = Ok (json OkTrue)
  /\ companies (webhook req w).2
     = <[Invoice.companyId invoice := withDueDate company date]> (companies w)
  /\ invoices (webhook req w).2
     = <[invoiceKey := asPaid invoice (now w) "approved"]> (invoices w)
  /\ paymentGet (webhook req w).2 = paymentGet w
  /\ faults (webhook req w).2 = []
  /\ logFaults (webhook req w).2 = logFaults w
  /\ plans (webhook req w).2 = plans w.
Proof.
  intros Hf Hl (Hmp & reqBody & data & Hb & Ha & Hd & Hi) [Hget Hinv] Hpaid Hc He.
  apply eqb_string_neq in Hpaid.
  assert (Hneg : negb (isMercadoPago (wr_type req)) = false) by by rewrite Hmp.
  destruct w as [inv co pl nw zn fl lf pg pc el wl em cr].
  cbn in Hf, Hl, Hget, Hinv, Hc, He. subst fl lf.
  wp_start. unfold webhook. repeat wp_follow.
  cbn [pi_status pi_external_reference String.eqb Ascii.eqb Bool.eqb].
  cbv beta iota. repeat wp_follow. done.
Qed.

Lemma confirm_first e req w id invoiceKey invoice company date :
  faults w = [] ->
  logWritable e w ->
  notifies req id ->
  approvedFor w id invoiceKey invoice ->
  Invoice.status invoice <> "paid" ->
  companies w !! Invoice.companyId invoice = Some company ->
  extendDueDate (zone w) (Company.dueDate company) (now w) = Ok date ->
  (confirm e req id w).1
  = Ok (json match e with
             | Poll =>
                 StatusBody "approved"
                   (Some (Invoice.companyId invoice, withDueDate company date))
                   true (Some "Pagamento aprovado com sucesso!")
             | Hook => OkTrue
             end)
  /\ companies (confirm e req id w).2
     = <[Invoice.companyId invoice := withDueDate company date]> (companies w)
  /\ invoices (confirm e req id w).2
     = <[invoiceKey := asPaid invoice (now w) "approved"]> (invoices w)
  /\ paymentGet (confirm e req id w).2 = paymentGet w
  /\ faults (confirm e req id w).2 = []
  /\ logFaults (confirm e req id w).2 = logFaults w
  /\ plans (confirm e req id w).2 = plans w.
Proof.
  intros Hf Hl Hn Ha Hpaid Hc He. destruct e; cbn [confirm logWritable] in *.
  - by eapply checkPaymentStatus_first.
  - by eapply webhook_first.
Qed.

(** A condition on the log of the first world holds of the world after a
    run that left the faults of the log as they were. *)
Lemma logWritable_after e w w' :
  logFaults w' = logFaults w -> logWritable e w -> logWritable e w'.
Proof. intros H. destruct e; cbn [logWritable]; [done | by rewrite H]. Qed.

(** X11: confirming the same approved payment twice, by any of the two
    entry points each time: the extension is applied once, by the first
    run; the second run answers "previously processed", 200 with
    [{status: "approved", success: true, message: "Pagamento já foi
    processado anteriormente!"}], and writes nothing.  The persistence layer
    is taken to work, and so are the appends of the webhook to its log. *)
Lemma confirmation_then_repeat e1 e2 req w id invoiceKey invoice company date :
  faults w = [] ->
  logWritable e1 w ->
  logWritable e2 w ->
  notifies req id ->
  approvedFor w id invoiceKey invoice ->
  Invoice.status invoice <> "paid" ->
  companies w !! Invoice.companyId invoice = Some company ->
  extendDueDate (zone w) (Company.dueDate company) (now w) = Ok date ->
  companies (confirm e1 req id w).2 !! Invoice.companyId invoice
  = Some (withDueDate company date)
  /\ (confirm e2 req id (confirm e1 req id w).2).1
     = Ok (mkResponse 200
             (StatusBody "approved" None true
                (Some "Pagamento já foi processado anteriormente!")))
  /\ companies (confirm e2 req id (confirm e1 req id w).2).2
     = companies (confirm e1 req id w).2
  /\ invoices (confirm e2 req id (confirm e1 req id w).2).2
     = invoices (confirm e1 req id w).2.
Proof.
  intros Hf Hl1 Hl2 Hn Ha Hpaid Hc He.
  destruct (confirm_first e1 req w id invoiceKey invoice company date
              Hf Hl1 Hn Ha Hpaid Hc He) as (_ & Hc1 & Hi1 & Hg1 & Hf1 & Hlf1 & _).
  set (w1 := (confirm e1 req id w).2) in *.
  assert (Ha1 : approvedFor w1 id invoiceKey
                  (asPaid invoice (now w) "approved")).
  { destruct Ha as [Hget _]. split; [by rewrite Hg1|].
    by rewrite Hi1, lookup_insert_eq. }
  assert (Hhd1 : hd false (faults w1) = false) by by rewrite Hf1.
  pose proof (logWritable_after e2 w w1 Hlf1 Hl2) as Hl2'.
  destruct (confirm_paid e2 req w1 id invoiceKey _ Hhd1 Hl2' Hn Ha1 eq_refl)
    as (Hr2 & Hi2 & Hc2 & _).
  split; [by rewrite Hc1, lookup_insert_eq|].
  split; [exact Hr2 | done].
Qed.

(** The end-to-end example of the specification: an invoice of 49.90 of a
    tenant due 2024-06-01, paid on 2024-05-20; the poll marks the invoice
    paid and moves the due date to 2024-07-01 without any event, the webhook
    does the same with one event. *)
Lemma end_to_end_example :
  Company.dueDate <$> companies (checkPaymentStatus 9001 pendingWorld).2 !! 7
  = Some (Some (utc 2024 7 1 0 0))
  /\ Invoice.status <$> invoices (checkPaymentStatus 9001 pendingWorld).2 !! 42
     = Some "paid"
  /\ emitted (checkPaymentStatus 9001 pendingWorld).2 = []
  /\ Company.dueDate <$> companies (webhook paymentUpdated pendingWorld).2 !! 7
     = Some (Some (utc 2024 7 1 0 0))
  /\ ev_name <$> emitted (webhook paymentUpdated pendingWorld).2
     = ["company-7-payment"].
Proof.
  repeat (split; [vm_compute; reflexivity|]). vm_compute. reflexivity.
Qed.

(** ** The creation endpoint *)

Lemma positive_invalidPrice v :
  CreationSpec.positive v = negb (invalidPrice v).
Proof.
  destruct v as [|q]; [reflexivity|].
  unfold CreationSpec.positive, invalidPrice.
  destruct (Qlt_le_dec 0%Q q) as [Hlt | Hle].
  - replace (Qcompare 0%Q q) with Lt by (symmetry; by apply Qlt_alt).
    destruct (Qle_bool q 0%Q) eqn:Hb; [|reflexivity].
    apply Qle_bool_iff in Hb. exfalso. by apply (Qlt_not_le 0%Q q).
  - replace (Qle_bool q 0%Q) with true by (symmetry; by apply Qle_bool_iff).
    destruct (Qcompare_spec 0%Q q) as [Heq | Hlt | Hgt]; try reflexivity.
    exfalso. by apply (Qlt_not_le 0%Q q).
Qed.

Lemma identificationType_length document :
  identificationType document
  = match document with
    | Some doc => if Nat.eqb (String.length doc) 11 then "CPF" else "CNPJ"
    | None => "CNPJ"
    end.
Proof.
  unfold identificationType, documentLength.
  destruct document as [doc|]; [|reflexivity]. cbn.
  generalize (String.length doc). intros n.
  do 12 (destruct n as [|n]; [reflexivity|]). reflexivity.
Qed.

Ltac spec_constraints :=
  unfold CreationSpec.constraints, CreationSpec.valuePositive,
    CreationSpec.belongsToCaller, CreationSpec.planOf, CreationSpec.tenantOf,
    CreationSpec.invoiceOf, CreationSpec.invoiceKey, CreationSpec.caller;
  wsimpl;
  repeat match goal with
         | H : ?x = _ |- context [?x] => rewrite H; cbn
         end.

(** C2: the constraints of [createSubscription] are checked in the order
    authenticated (401), identifier present (400), invoice exists (404),
    invoice of the caller's tenant (403), tenant exists (404), plan exists
    (404), value positive (400): with the persistence layer and the appends
    to error.log working, the request fails with the status of the first
    constraint violated, before any call of the gateway, and with none
    violated the gateway is called. *)
Theorem createSubscription_first_violated req w :
  faults w = [] ->
  logFaults w = [] ->
  match CreationSpec.firstViolated (CreationSpec.constraints req w) with
  | Some status =>
      thrownStatus (createSubscription req w).1 = Some status
      /\ created (createSubscription req w).2 = created w
  | None =>
      exists paymentData,
        created (createSubscription req w).2 = created w ++ [paymentData]
  end.
Proof.
  intros Hf Hl. destruct w as [inv co pl nw zn fl lf pg pc el wl em cr].
  cbn in Hf, Hl. subst fl lf.
  wp_start. unfold createSubscription. wp_run.
  all: try match goal with H : false = true |- _ => discriminate H end.
  all: repeat match goal with
         | H : negb _ = true |- _ => apply negb_true_iff in H
         | H : negb _ = false |- _ => apply negb_false_iff in H
         end.
  all: try match goal with
         | H : invalidPrice ?v = _ |- _ =>
             assert (CreationSpec.positive v = negb (invalidPrice v))
               by apply positive_invalidPrice;
             rewrite H in *; cbn [negb] in *
         end.
  all: spec_constraints.
  all: try done; eauto.
Qed.

Lemma createSubscription_first_violated_witness :
  thrownStatus
    (createSubscription (mkCreateRequest (Some 8) (Number 42)) pendingWorld).1
  = Some 403
  /\ created
       (createSubscription (mkCreateRequest (Some 8) (Number 42)) pendingWorld).2
     = created pendingWorld.
Proof.
  exact (createSubscription_first_violated
           (mkCreateRequest (Some 8) (Number 42)) pendingWorld eq_refl eq_refl).
Defined.

(** C5 (amended): for an authenticated caller, with the persistence layer
    and the appends to error.log working, a request without [invoiceId] is
    rejected with 400; a request whose [invoiceId] is a number, 0 included,
    is looked up, and is rejected with 404 when there is no such invoice and
    with 403 when the invoice is of another tenant. *)
Theorem createSubscription_rejections req w companyId :
  faults w = [] ->
  logFaults w = [] ->
  truthy (req_companyId req) = Some companyId ->
  (req_invoiceId req = Missing ->
   thrownStatus (createSubscription req w).1 = Some 400)
  /\ (forall n,
        req_invoiceId req = Number n ->
        invoices w !! n = None ->
        thrownStatus (createSubscription req w).1 = Some 404)
  /\ (forall n invoice,
        req_invoiceId req = Number n ->
        invoices w !! n = Some invoice ->
        Invoice.companyId invoice <> companyId ->
        thrownStatus (createSubscription req w).1 = Some 403).
Proof.
  intros Hf Hl Hc. destruct w as [inv co pl nw zn fl lf pg pc el wl em cr].
  cbn in Hf, Hl. subst fl lf.
  split; [|split].
  - intros Hm. wp_start. unfold createSubscription.
    repeat wp_follow. reflexivity.
  - intros n Hn Hi. cbn in Hi. wp_start. unfold createSubscription.
    repeat wp_follow. reflexivity.
  - intros n invoice Hn Hi Hne. cbn in Hi. apply Z.eqb_neq in Hne.
    assert (Hneg : negb (Invoice.companyId invoice =? companyId) = true)
      by by rewrite Hne.
    wp_start. unfold createSubscription.
    repeat wp_follow. reflexivity.
Qed.

Lemma createSubscription_rejections_witness :
  thrownStatus
    (createSubscription (mkCreateRequest (Some 7) Missing) pendingWorld).1
  = Some 400
  /\ thrownStatus
       (createSubscription (mkCreateRequest (Some 7) (Number 0)) pendingWorld).1
     = Some 404
  /\ thrownStatus
       (createSubscription (mkCreateRequest (Some 8) (Number 42)) pendingWorld).1
     = Some 403.
Proof.
  split; [|split].
  - exact (proj1 (createSubscription_rejections
                    (mkCreateRequest (Some 7) Missing) pendingWorld 7
                    eq_refl eq_refl eq_refl) eq_refl).
  - apply (proj1 (proj2 (createSubscription_rejections
                           (mkCreateRequest (Some 7) (Number 0)) pendingWorld 7
                           eq_refl eq_refl eq_refl)) 0 eq_refl).
    vm_compute. reflexivity.
  - apply (proj2 (proj2 (createSubscription_rejections
                           (mkCreateRequest (Some 8) (Number 42)) pendingWorld 8
                           eq_refl eq_refl eq_refl)) 42 pendingInvoice eq_refl).
    + vm_compute. reflexivity.
    + vm_compute. discriminate.
Defined.

(** C5 as stated fails on [invoiceId] 0: the schema accepts the number, the
    invoice is looked up and, there being none, the status is 404, not 400. *)
Lemma createSubscription_invoiceId_zero :
  thrownStatus
    (createSubscription (mkCreateRequest (Some 7) (Number 0)) pendingWorld).1
  = Some 404
  /\ thrownStatus
       (createSubscription (mkCreateRequest (Some 7) (Number 0)) pendingWorld).1
     <> Some 400.
Proof.
  split; [vm_compute; reflexivity | vm_compute; discriminate].
Qed.

(** C7: whenever a creation request reaches the gateway, the payer's
    [identification.type] of the payment request is "CPF" when the document
    of the caller's company is 11 characters long, and "CNPJ" otherwise, an
    absent document included. *)
Theorem createSubscription_identification req w paymentData :
  created (createSubscription req w).2 = created w ++ [paymentData] ->
  exists companyId company,
    truthy (req_companyId req) = Some companyId
    /\ companies w !! companyId = Some company
    /\ id_type (payer_identification (payer paymentData))
       = match Company.document company with
         | Some doc => if Nat.eqb (String.length doc) 11 then "CPF" else "CNPJ"
         | None => "CNPJ"
         end.
Proof.
  revert paymentData. wp_start. unfold createSubscription. wp_run.
  all: intros paymentData Hcreated.
  all: try (exfalso; apply (f_equal length) in Hcreated;
            rewrite length_app in Hcreated; cbn in Hcreated; lia).
  all: apply app_inj_tail in Hcreated as [_ <-].
  all: do 2 eexists; split; [reflexivity|]; split; [eassumption|].
  all: apply identificationType_length.
Qed.

Lemma createSubscription_identification_witness :
  exists companyId company,
    truthy (req_companyId (mkCreateRequest (Some 7) (Number 42)))
    = Some companyId
    /\ companies pendingWorld !! companyId = Some company
    /\ id_type (payer_identification
                  (payer (paymentDataFor 42 pendingInvoice acme basic)))
       = match Company.document company with
         | Some doc => if Nat.eqb (String.length doc) 11 then "CPF" else "CNPJ"
         | None => "CNPJ"
         end.
Proof.
  apply (createSubscription_identification
           (mkCreateRequest (Some 7) (Number 42)) pendingWorld
           (paymentDataFor 42 pendingInvoice acme basic)).
  vm_compute. reflexivity.
Defined.

(** ** The poller *)
Module PollerFacts.
Import Poller.

Lemma request_attempts s : attempts (request s) = attempts s.
Proof. reflexivity. Qed.

Lemma onError_frame status s :
  attempts (onError status s) = attempts s
  /\ intervalId (onError status s) = intervalId s
  /\ isChecking (onError status s) = isChecking s
  /\ requests (onError status s) = requests s.
Proof.
  unfold onError. destruct status as [[|p|p]|]; try done.
  do 9 (destruct p as [p|p|]; try done).
Qed.

(** Settling a reply sends no request. *)
Lemma settle_requests r s : requests (settle r s) = requests s.
Proof.
  destruct r as [[|] [company|] | status]; cbn [settle];
    try (destruct (maxAttempts <=? attempts s)); try reflexivity.
  all: apply onError_frame.
Qed.

(** With the interval cleared no tick does anything. *)
Lemma ticks_cleared rs s : intervalId s = false -> ticks rs s = s.
Proof.
  intros Hs. induction rs as [|r rs IH]; [reflexivity|].
  cbn [ticks fold_left]. unfold tick at 2. rewrite Hs. exact IH.
Qed.

Lemma settle_unsuccessful_expires company s :
  maxAttempts <= attempts s -> expired (settle (Data false company) s).
Proof.
  intros Hmax. cbn [settle]. apply Z.leb_le in Hmax. rewrite Hmax.
  repeat split. cbn. apply in_or_app. right. by left.
Qed.

(** C8 (amended): the poller sends a request at once on mount and one per
    tick of the interval for as long as the interval is set, and none once
    it is cleared.  The attempt counter is incremented by the cycles whose
    [try] block runs to its end, those of a response without success and of
    a success that carries a company; it is left as it is by a cycle whose
    request is rejected and by a success without a company, where reading
    [data.company.dueDate] throws.  A response without success that finds
    the counter at 120 or more takes the poller to the terminal state
    "expired", after which no request is sent.  The interval is cleared on
    every success, on expiry and on unmount; the timeouts of the
    redirections are cleared by nothing, the cleanup leaves them pending. *)
Theorem poller_cycles :
  (forall r, requests (mount r) = 1%nat)
  /\ (forall r s, intervalId s = true -> requests (tick r s) = S (requests s))
  /\ (forall r s, intervalId s = false -> tick r s = s)
  /\ (forall company s,
        attempts (settle (Data false company) s) = attempts s + 1)
  /\ (forall company s,
        attempts (settle (Data true (Some company)) s) = attempts s + 1)
  /\ (forall s, attempts (settle (Data true None) s) = attempts s)
  /\ (forall status s, attempts (settle (Rejected status) s) = attempts s)
  /\ (forall company s rs,
        maxAttempts <= attempts s ->
        expired (settle (Data false company) s)
        /\ requests (ticks rs (settle (Data false company) s))
           = requests s)
  /\ (forall company s, intervalId (settle (Data true company) s) = false)
  /\ (forall s, intervalId (unmount s) = false)
  /\ (forall rs s, requests (ticks rs (unmount s)) = requests s)
  /\ (forall s, timeouts (unmount s) = timeouts s)
  /\ (forall company s,
        timeouts (unmount (settle (Data true (Some company)) s))
        = timeouts s ++ [("/"%string, 4000)]).
Proof.
  split. { intros r. unfold mount. rewrite settle_requests. reflexivity. }
  split. { intros r s Hs. unfold tick, checkPayment.
           rewrite Hs, settle_requests. reflexivity. }
  split. { intros r s Hs. unfold tick. by rewrite Hs. }
  split. { intros company s. cbn [settle].
           destruct (maxAttempts <=? attempts s); reflexivity. }
  split. { reflexivity. }
  split. { reflexivity. }
  split. { intros status s. apply (onError_frame status s). }
  split. { intros company s rs Hmax.
           pose proof (settle_unsuccessful_expires company s Hmax) as He.
           split; [exact He|].
           rewrite ticks_cleared, settle_requests; [reflexivity | apply He]. }
  split. { intros [company|] s; cbn [settle]; [reflexivity|].
           rewrite (proj1 (proj2 (onError_frame None (stop s)))).
           reflexivity. }
  split. { intros s. unfold unmount. destruct (intervalId s) eqn:Hs; done. }
  split. { intros rs s. rewrite ticks_cleared.
           - unfold unmount. destruct (intervalId s); reflexivity.
           - unfold unmount. destruct (intervalId s) eqn:Hs; done. }
  split. { intros s. unfold unmount. destruct (intervalId s); reflexivity. }
  intros company s. reflexivity.
Qed.

Lemma poller_cycles_witness :
  expired (settle unsuccessful (request (poll unsuccessful (repeat unsuccessful 119))))
  /\ requests (ticks [unsuccessful; unsuccessful]
                 (settle unsuccessful
                    (request (poll unsuccessful (repeat unsuccessful 119)))))
     = requests (request (poll unsuccessful (repeat unsuccessful 119))).
Proof.
  apply (proj1 (proj2 (proj2 (proj2 (proj2 (proj2 (proj2 (proj2
                  poller_cycles)))))))
           None (request (poll unsuccessful (repeat unsuccessful 119)))
           [unsuccessful; unsuccessful]).
  vm_compute. discriminate.
Defined.

(** C8 as stated fails three times.  A cycle that ends in an error leaves
    the counter at 0, be it a rejected request or a success without a
    company; after 120 unsuccessful cycles, the one on mount and 119 ticks,
    the counter is at 120 and the poller is still checking, with its
    interval set: it sends a 121st request and expires on the reply to that
    one; and after a success the timeout of the redirection is still
    pending when the component is unmounted. *)
Lemma poller_not_as_stated :
  attempts (mount (Rejected None)) = 0
  /\ attempts (mount (Rejected None)) <> 1
  /\ attempts (mount (Data true None)) = 0
  /\ timeouts (unmount (mount (Data true (Some acme)))) = [("/"%string, 4000)]
  /\ requests (poll unsuccessful (repeat unsuccessful 119)) = 120%nat
  /\ attempts (poll unsuccessful (repeat unsuccessful 119)) = 120
  /\ isChecking (poll unsuccessful (repeat unsuccessful 119)) = true
  /\ intervalId (poll unsuccessful (repeat unsuccessful 119)) = true
  /\ ~ expired (poll unsuccessful (repeat unsuccessful 119))
  /\ requests (poll unsuccessful (repeat unsuccessful 120)) = 121%nat
  /\ expired (poll unsuccessful (repeat unsuccessful 120)).
Proof.
  split; [vm_compute; reflexivity|].
  split; [vm_compute; discriminate|].
  split; [vm_compute; reflexivity|].
  split; [vm_compute; reflexivity|].
  split; [vm_compute; reflexivity|].
  split; [vm_compute; reflexivity|].
  split; [vm_compute; reflexivity|].
  split; [vm_compute; reflexivity|].
  split; [intros (H & _); vm_compute in H; discriminate|].
  split; [vm_compute; reflexivity|].
  vm_compute. split; [reflexivity|]. split; [reflexivity|]. by left.
Qed.

End PollerFacts.

(** ** More on the creation endpoint *)

Lemma numOr_nonzero c d : d <> 0 -> numOr c d <> 0.
Proof.
  intros Hd. unfold numOr. destruct c as [n|]; [|done].
  destruct (Z.eqb_spec n 0); done.
Qed.

Lemma numOr_numOr c d : d <> 0 -> numOr (Some (numOr c d)) d = numOr c d.
Proof.
  intros Hd. pose proof (numOr_nonzero c d Hd) as Hn.
  unfold numOr at 1. by apply Z.eqb_neq in Hn as ->.
Qed.

Lemma invalidPrice_false v :
  invalidPrice v = false -> exists q, v = Num q /\ (0 < q)%Q.
Proof.
  destruct v as [|q]; [discriminate|]. unfold invalidPrice. intros Hq.
  exists q. split; [reflexivity|]. apply Qnot_le_lt. intros Hle.
  apply Qle_bool_iff in Hle. congruence.
Qed.

Lemma validCreation_intro req w companyId n invoice company plan :
  truthy (req_companyId req) = Some companyId ->
  req_invoiceId req = Number n ->
  invoices w !! n = Some invoice ->
  Invoice.companyId invoice = companyId ->
  companies w !! companyId = Some company ->
  plans w !! Company.planId company = Some plan ->
  invalidPrice (Invoice.value invoice) = false ->
  validCreation req w companyId n invoice company plan.
Proof. unfold validCreation. auto 10. Qed.

(** X1: on every path, database failures included, [createSubscription]
    calls [payment.create] at most once, and only for a request that passed
    every check; the payment it asks for is a Pix payment of the invoice's
    value, a positive amount, with the invoice number as external
    reference. *)
Theorem createSubscription_gateway_call req w :
  created (createSubscription req w).2 = created w
  \/ exists companyId n invoice company plan q,
       validCreation req w companyId n invoice company plan
       /\ Invoice.value invoice = Num q
       /\ (0 < q)%Q
       /\ created (createSubscription req w).2
          = created w
              ++ [mkPaymentData q
                    ("Fatura #" +:+ pretty n +:+ " - " +:+ Plan.name plan)
                    "pix"
                    (mkPayer (Company.email company) (Company.name company)
                       (mkIdentification
                          (identificationType (Company.document company))
                          (default "" (Company.document company))))
                    (pretty n)].
Proof.
  wp_start. unfold createSubscription. wp_run.
  all: try (left; reflexivity).
  all: right.
  all: repeat match goal with
         | H : negb _ = false |- _ => apply negb_false_iff in H
         | H : (_ =? _) = true |- _ => apply Z.eqb_eq in H
         end.
  all: match goal with
       | H : invalidPrice _ = false |- _ =>
           destruct (invalidPrice_false _ H) as (q & Hq & Hpos)
       end.
  all: do 6 eexists; split; [eapply validCreation_intro; eassumption|].
  all: split; [eassumption|]; split; [eassumption|].
  all: unfold paymentDataFor; rewrite Hq; reflexivity.
Qed.

Lemma wp_payment_create_resolves d a Q w :
  paymentCreate w d = Resolves a ->
  Q (Ok a) (set_created (created w ++ [d]) w) ->
  wp (payment_create d) Q w.
Proof. intros Ha HQ. apply wp_payment_create; intros; congruence. Qed.

Lemma wp_payment_create_rejects d e Q w :
  paymentCreate w d = Rejects e ->
  Q (Throw e) (set_created (created w ++ [d]) w) ->
  wp (payment_create d) Q w.
Proof. intros He HQ. apply wp_payment_create; intros; congruence. Qed.

(** A step along the path the hypotheses single out, the call of
    [payment.create] included. *)
Ltac wp_along :=
  lazymatch goal with
  | |- wp (payment_create _) _ _ =>
      first [ eapply wp_payment_create_rejects; [wsimpl; eassumption|]
            | eapply wp_payment_create_resolves; [wsimpl; eassumption|] ];
      cbv beta iota; wsimpl
  | |- _ => wp_follow
  end.

(** X2: when the gateway rejects the payment of a valid request, the
    request fails with the status the gateway's error carries, or 500 when
    it carries none, and with the gateway's message after the prefix
    "Erro ao gerar QR code PIX: "; nothing is written.  The persistence
    layer and the appends to error.log are taken to work. *)
Theorem createSubscription_gateway_error req w companyId n invoice company plan e :
  faults w = [] ->
  logFaults w = [] ->
  validCreation req w companyId n invoice company plan ->
  paymentCreate w (paymentDataFor n invoice company plan) = Rejects e ->
  (createSubscription req w).1
  = Throw (AppError ("Erro ao gerar QR code PIX: "
                       +:+ strOr (message e) "Erro desconhecido")
                    (numOr (status e) 500))
  /\ sameData w (createSubscription req w).2.
Proof.
  intros Hf Hl (Hc & Hn & Hi & Hown & Hco & Hp & Hv) Hg.
  assert (Hneg : negb (Invoice.companyId invoice =? companyId) = false).
  { apply negb_false_iff, Z.eqb_eq, Hown. }
  destruct w as [inv co pl nw zn fl lf pg pc el wl em cr].
  cbn in Hf, Hl, Hi, Hco, Hp, Hg. subst fl lf.
  wp_start. unfold createSubscription.
  repeat wp_along.
  cbn [message statusCode AppError strOr String.append].
  rewrite numOr_numOr by done. done.
Qed.

Lemma createSubscription_gateway_error_witness :
  (createSubscription createPending
     (worldAt pendingInvoice acme [] gatewayDown)).1
  = Throw (AppError ("Erro ao gerar QR code PIX: "
                       +:+ strOr "Service unavailable" "Erro desconhecido")
                    (numOr (Some 503) 500))
  /\ sameData (worldAt pendingInvoice acme [] gatewayDown)
       (createSubscription createPending
          (worldAt pendingInvoice acme [] gatewayDown)).2.
Proof.
  apply (createSubscription_gateway_error createPending
           (worldAt pendingInvoice acme [] gatewayDown) 7 42 pendingInvoice
           acme basic (mkExn "Service unavailable" None (Some 503))).
  - reflexivity.
  - reflexivity.
  - repeat split; vm_compute; reflexivity.
  - reflexivity.
Defined.

(** X3: when the gateway answers a valid request with nothing the handler
    can use, no answer, no id or no QR data, the request fails with status
    500 and nothing is written; an answer without id gives the message
    "Erro ao gerar QR code PIX: Erro ao gerar QR code PIX", the handler's own
    error going through its handler for gateway errors.  The persistence
    layer and the appends to error.log are taken to work. *)
Theorem createSubscription_unusable_answer req w companyId n invoice company plan a :
  faults w = [] ->
  logFaults w = [] ->
  validCreation req w companyId n invoice company plan ->
  paymentCreate w (paymentDataFor n invoice company plan) = Resolves a ->
  usable a = None ->
  thrownStatus (createSubscription req w).1 = Some 500
  /\ sameData w (createSubscription req w).2
  /\ ((a ≫= fun r => truthy (gp_id r)) = None ->
      (createSubscription req w).1
      = Throw (AppError "Erro ao gerar QR code PIX: Erro ao gerar QR code PIX"
                 500)).
Proof.
  intros Hf Hl (Hc & Hn & Hi & Hown & Hco & Hp & Hv) Hg Hu.
  assert (Hneg : negb (Invoice.companyId invoice =? companyId) = false).
  { apply negb_false_iff, Z.eqb_eq, Hown. }
  destruct w as [inv co pl nw zn fl lf pg pc el wl em cr].
  cbn in Hf, Hl, Hi, Hco, Hp, Hg. subst fl lf.
  wp_start. unfold createSubscription.
  repeat wp_along.
  unfold usable in Hu.
  destruct a as [r|]; cbn [mbind option_bind] in *.
  - destruct (truthy (gp_id r)) as [id|]; cbn [mbind option_bind] in *.
    + destruct (gp_transaction_data r) as [td|]; [discriminate|].
      repeat wp_along. done.
    + repeat wp_along. done.
  - repeat wp_along. done.
Qed.

Lemma createSubscription_unusable_answer_witness :
  thrownStatus (createSubscription createPending
                  (worldAt pendingInvoice acme [] gatewayEmpty)).1
  = Some 500
  /\ sameData (worldAt pendingInvoice acme [] gatewayEmpty)
       (createSubscription createPending
          (worldAt pendingInvoice acme [] gatewayEmpty)).2
  /\ ((Some (mkGatewayPayment None None) ≫= fun r => truthy (gp_id r)) = None ->
      (createSubscription createPending
         (worldAt pendingInvoice acme [] gatewayEmpty)).1
      = Throw (AppError "Erro ao gerar QR code PIX: Erro ao gerar QR code PIX"
                 500)).
Proof.
  apply (createSubscription_unusable_answer createPending
           (worldAt pendingInvoice acme [] gatewayEmpty) 7 42 pendingInvoice
           acme basic (Some (mkGatewayPayment None None))).
  - reflexivity.
  - reflexivity.
  - repeat split; vm_compute; reflexivity.
  - reflexivity.
  - reflexivity.
Defined.

(** X4: a valid request that the gateway answers with an id and QR data is
    answered with status 200 and the payment's id, the QR text, the QR
    image under both of its keys, the invoice's value, the names of the
    plan and of the company, the markers "pending" and "pix" and the invoice
    number as external reference; nothing is written.  The persistence
    layer and the appends to error.log are taken to work. *)
Theorem createSubscription_success req w companyId n invoice company plan
    a id td :
  faults w = [] ->
  logFaults w = [] ->
  validCreation req w companyId n invoice company plan ->
  paymentCreate w (paymentDataFor n invoice company plan) = Resolves a ->
  usable a = Some (id, td) ->
  (createSubscription req w).1
  = Ok (mkResponse 200
          (SubscriptionBody id
             (mkQrCode (qr_code td) (qr_code_base64 td) (qr_code_base64 td))
             (priceNumber (Invoice.value invoice))
             (Plan.name plan) (Company.name company) "pending" "pix"
             (pretty n)))
  /\ sameData w (createSubscription req w).2.
Proof.
  intros Hf Hl (Hc & Hn & Hi & Hown & Hco & Hp & Hv) Hg Hu.
  assert (Hneg : negb (Invoice.companyId invoice =? companyId) = false).
  { apply negb_false_iff, Z.eqb_eq, Hown. }
  destruct w as [inv co pl nw zn fl lf pg pc el wl em cr].
  cbn in Hf, Hl, Hi, Hco, Hp, Hg. subst fl lf.
  wp_start. unfold createSubscription.
  repeat wp_along.
  unfold usable in Hu.
  destruct a as [r|]; cbn [mbind option_bind] in *; [|discriminate].
  destruct (truthy (gp_id r)) as [id'|]; cbn [mbind option_bind] in *;
    [|discriminate].
  destruct (gp_transaction_data r) as [td'|] eqn:Htd; [|discriminate].
  injection Hu as -> ->.
  repeat wp_along. done.
Qed.

Lemma createSubscription_success_witness :
  (createSubscription createPending pendingWorld).1
  = Ok (mkResponse 200
          (SubscriptionBody 9001
             (mkQrCode (qr_code (mkTransactionData "00020126" "iVBORw0KGgo="))
                (qr_code_base64 (mkTransactionData "00020126" "iVBORw0KGgo="))
                (qr_code_base64 (mkTransactionData "00020126" "iVBORw0KGgo=")))
             (priceNumber (Invoice.value pendingInvoice))
             (Plan.name basic) (Company.name acme) "pending" "pix"
             (pretty 42)))
  /\ sameData pendingWorld (createSubscription createPending pendingWorld).2.
Proof.
  apply (createSubscription_success createPending pendingWorld 7 42
           pendingInvoice acme basic
           (Some (mkGatewayPayment (Some 9001)
                    (Some (mkTransactionData "00020126" "iVBORw0KGgo="))))
           9001 (mkTransactionData "00020126" "iVBORw0KGgo=")).
  - reflexivity.
  - reflexivity.
  - repeat split; vm_compute; reflexivity.
  - reflexivity.
  - reflexivity.
Defined.

(** X5: whatever the request and the world, [createSubscription] has one
    of three outcomes: it answers 200 with a subscription body; or it throws
    an [AppError] with a status other than 0 and a message that is not
    empty; or an append to error.log has failed in the outer [catch] block
    and the error of the append, which is no [AppError], is thrown as it
    is.  It sends no event and changes no stored row. *)
Theorem createSubscription_outcome req w :
  ((exists id qr value plano cliente reference,
      (createSubscription req w).1
      = Ok (mkResponse 200
              (SubscriptionBody id qr value plano cliente "pending" "pix"
                 reference)))
   \/ (exists msg status,
         (createSubscription req w).1 = Throw (AppError msg status)
         /\ status <> 0 /\ msg <> "")
   \/ ((createSubscription req w).1 = Throw appendFailed
       /\ statusCode appendFailed = None
       /\ In true (logFaults w)))
  /\ sameData w (createSubscription req w).2.
Proof.
  wp_start. unfold createSubscription. wp_run.
  all: split; [|done].
  all: try (left; do 6 eexists; reflexivity).
  all: try (right; right; split; [reflexivity|]; split; [reflexivity|];
            log_fault).
  all: right; left; do 2 eexists; split; [reflexivity|].
  all: split; [by apply numOr_nonzero|].
  all: cbn [message AppError Error appendFailed statusCode strOr String.append];
    try discriminate.
  all: unfold strOr; repeat case_match; discriminate.
Qed.

(** The third outcome is real: with error.log not to be appended to, the
    opening append throws, the append of the outer [catch] block throws
    again, and what the caller gets is the error of the append; when only
    the opening append fails, the caller gets an [AppError] with status 500
    that carries the message of the append. *)
Lemma createSubscription_append_fails :
  (createSubscription createPending (diskFull pendingWorld)).1
  = Throw appendFailed
  /\ (createSubscription createPending (set_logFaults [true] pendingWorld)).1
     = Throw (AppError "ENOSPC: no space left on device, write" 500).
Proof.
  split; vm_compute; reflexivity.
Qed.

(** ** The diagnostic logs *)

Lemma prefix_snoc {A} (l k : list A) x : l `prefix_of` k -> l `prefix_of` k ++ [x].
Proof. apply prefix_app_r. Qed.

(** X6: the two logs only grow: under every operation, whether its appends
    succeed or fail, each log afterwards starts with the log before.
    [createSubscription] writes to error.log only, and its opening line is
    there whenever its first append succeeds; [webhook] writes to
    webhook.log only; [checkPaymentStatus] writes to neither. *)
Theorem logs_append_only op w :
  errorLog w `prefix_of` errorLog (runOperation op w).2
  /\ webhookLog w `prefix_of` webhookLog (runOperation op w).2
  /\ match op with
     | CreateSubscription _ =>
         webhookLog (runOperation op w).2 = webhookLog w
         /\ (hd false (logFaults w) = false ->
             (now w, "=== Nova tentativa de criar assinatura ===")
             ∈ errorLog (runOperation op w).2)
     | Webhook _ => errorLog (runOperation op w).2 = errorLog w
     | CheckPaymentStatus _ =>
         errorLog (runOperation op w).2 = errorLog w
         /\ webhookLog (runOperation op w).2 = webhookLog w
     end.
Proof.
  destruct op as [req | req | paymentId]; cbn [runOperation]; wp_start.
  - unfold createSubscription. wp_run.
    all: split; [repeat apply prefix_snoc; reflexivity|].
    all: split; [reflexivity|]; split; [reflexivity|].
    all: intros Hfirst; try congruence.
    all: rewrite !elem_of_app, !list_elem_of_singleton; tauto.
  - unfold webhook. wp_run.
    all: split; [reflexivity|].
    all: split; [repeat apply prefix_snoc; reflexivity | reflexivity].
  - unfold checkPaymentStatus. wp_run; done.
Qed.

Lemma logs_append_only_witness :
  (now pendingWorld, "=== Nova tentativa de criar assinatura ===")
  ∈ errorLog (runOperation (CreateSubscription createPending) pendingWorld).2.
Proof.
  apply (proj2 (proj2 (proj2 (logs_append_only
                                (CreateSubscription createPending)
                                pendingWorld)))).
  reflexivity.
Defined.

(** ** More on the poll *)

(** X7: for a payment that the gateway does not report as approved the poll
    answers [{status, success: false}] with the gateway's status and leaves
    the world exactly as it was: no lookup, no write, no log line. *)
Theorem checkPaymentStatus_not_approved paymentId w info :
  paymentGet w paymentId = Resolves info ->
  pi_status info <> "approved" ->
  (checkPaymentStatus paymentId w).1
  = Ok (mkResponse 200 (StatusBody (pi_status info) None false None))
  /\ (checkPaymentStatus paymentId w).2 = w.
Proof.
  intros Hget Hs. apply eqb_string_neq in Hs.
  wp_start. unfold checkPaymentStatus. repeat wp_follow. done.
Qed.

Lemma checkPaymentStatus_not_approved_witness :
  (checkPaymentStatus 9001
     (mkWorld ∅ ∅ ∅ 0 saoPaulo [] [] pendingGet pixCreate [] [] [] [])).1
  = Ok (mkResponse 200
          (StatusBody (pi_status (mkPaymentInfo "pending" (Some 42))) None
             false None))
  /\ (checkPaymentStatus 9001
        (mkWorld ∅ ∅ ∅ 0 saoPaulo [] [] pendingGet pixCreate [] [] [] [])).2
     = mkWorld ∅ ∅ ∅ 0 saoPaulo [] [] pendingGet pixCreate [] [] [] [].
Proof.
  apply (checkPaymentStatus_not_approved 9001
           (mkWorld ∅ ∅ ∅ 0 saoPaulo [] [] pendingGet pixCreate [] [] [] [])
           (mkPaymentInfo "pending" (Some 42))).
  - reflexivity.
  - vm_compute. discriminate.
Defined.

(** X8: [checkPaymentStatus] answers 200 with a status body or throws the
    one error "Erro ao verificar status do pagamento" with status 500,
    whatever failed, the gateway or the persistence layer; a rejection by
    the gateway loses its own status and message and leaves the world as it
    was. *)
Theorem checkPaymentStatus_outcome paymentId w :
  ((exists status company success msg,
      (checkPaymentStatus paymentId w).1
      = Ok (mkResponse 200 (StatusBody status company success msg)))
   \/ (checkPaymentStatus paymentId w).1 = Throw checkFailed)
  /\ (forall e,
        paymentGet w paymentId = Rejects e ->
        (checkPaymentStatus paymentId w).1 = Throw checkFailed
        /\ (checkPaymentStatus paymentId w).2 = w).
Proof.
  split.
  - wp_start. unfold checkPaymentStatus. wp_run.
    all: try (right; reflexivity).
    all: left; do 4 eexists; reflexivity.
  - intros e He. wp_start. unfold checkPaymentStatus.
    apply wp_try_catch, wp_bind. unfold payment_get.
    apply wp_gateway; wsimpl; intros a Ha; [congruence|]. done.
Qed.

Lemma checkPaymentStatus_outcome_witness :
  (checkPaymentStatus 5 pendingWorld).1 = Throw checkFailed
  /\ (checkPaymentStatus 5 pendingWorld).2 = pendingWorld.
Proof.
  apply (proj2 (checkPaymentStatus_outcome 5 pendingWorld)
           (mkExn "Payment not found" None (Some 404))).
  reflexivity.
Defined.

(** X9: an approved payment with nothing to confirm, no external reference,
    no such invoice, or an unpaid invoice whose company is not stored, is
    answered by the poll with [{status: "approved", success: false}] and by
    the webhook with [{ok: true}]; no row is written and no event is
    sent.  The persistence layer is taken to work, and so are the appends
    of the webhook to its log. *)
Theorem confirm_without_target e req w id reference :
  faults w = [] ->
  logWritable e w ->
  notifies req id ->
  paymentGet w id = Resolves (mkPaymentInfo "approved" reference) ->
  noTarget w reference ->
  (confirm e req id w).1
  = Ok (mkResponse 200
          match e with
          | Poll => StatusBody "approved" None false None
          | Hook => OkTrue
          end)
  /\ sameData w (confirm e req id w).2.
Proof.
  intros Hf Hl (Hmp & reqBody & data & Hb & Ha & Hd & Hi) Hget Hno.
  assert (Hneg : negb (isMercadoPago (wr_type req)) = false) by by rewrite Hmp.
  destruct w as [inv co pl nw zn fl lf pg pc el wl em cr].
  cbn in Hf, Hget. subst fl. unfold noTarget in Hno. wsimpl.
  destruct e; cbn [confirm logWritable] in *; [|wsimpl; subst lf]; wp_start.
  - unfold checkPaymentStatus. repeat wp_follow.
    cbn [pi_status pi_external_reference String.eqb Ascii.eqb Bool.eqb].
    cbv beta iota.
    destruct reference as [k|]; [|repeat wp_follow; done].
    destruct (inv !! k) as [invoice|] eqn:Hinv; [|repeat wp_follow; done].
    destruct Hno as [Hpaid Hco]. apply eqb_string_neq in Hpaid.
    repeat wp_follow. done.
  - unfold webhook. repeat wp_follow.
    cbn [pi_status pi_external_reference String.eqb Ascii.eqb Bool.eqb].
    cbv beta iota. repeat wp_follow.
    destruct reference as [k|]; [|repeat wp_follow; done].
    destruct (inv !! k) as [invoice|] eqn:Hinv; [|repeat wp_follow; done].
    destruct Hno as [Hpaid Hco]. apply eqb_string_neq in Hpaid.
    repeat wp_follow. done.
Qed.

Lemma confirm_without_target_witness :
  (confirm Poll paymentUpdated 9001 strayWorld).1
  = Ok (mkResponse 200 (StatusBody "approved" None false None))
  /\ sameData strayWorld (confirm Poll paymentUpdated 9001 strayWorld).2.
Proof.
  apply (confirm_without_target Poll paymentUpdated strayWorld 9001 (Some 42)).
  - reflexivity.
  - exact I.
  - split; [reflexivity|]. do 2 eexists. repeat split; reflexivity.
  - reflexivity.
  - vm_compute. exact I.
Defined.

(** ** More on the confirmation *)

Lemma confirmable_intro req w id invoiceKey invoice company :
  notifies req id ->
  approvedFor w id invoiceKey invoice ->
  Invoice.status invoice <> "paid" ->
  companies w !! Invoice.companyId invoice = Some company ->
  confirmable req w id invoiceKey invoice company.
Proof. unfold confirmable. auto. Qed.

(** X10: the first confirmation of an approved payment, by the poll or by
    the webhook, with the persistence layer working: the company's row
    keeps its plan, e-mail, name and document and gets the extended due
    date, the invoice keeps its company and value and is marked paid at the
    time of the request with the status "approved", every other row stays as
    it was, and the poll answers with the updated company.  The appends of
    the webhook to its log are taken to succeed. *)
Theorem first_confirmation e req w id invoiceKey invoice company date :
  faults w = [] ->
  logWritable e w ->
  confirmable req w id invoiceKey invoice company ->
  extendDueDate (zone w) (Company.dueDate company) (now w) = Ok date ->
  (confirm e req id w).1
  = Ok (mkResponse 200
          match e with
          | Poll =>
              StatusBody "approved"
                (Some (Invoice.companyId invoice,
                       Company.mk (Company.planId company)
                         (Company.email company) (Company.name company)
                         (Company.document company)
                         (Some (JSDate.parseDateOnly date))))
                true (Some "Pagamento aprovado com sucesso!")
          | Hook => OkTrue
          end)
  /\ companies (confirm e req id w).2
     = <[Invoice.companyId invoice :=
           Company.mk (Company.planId company) (Company.email company)
             (Company.name company) (Company.document company)
             (Some (JSDate.parseDateOnly date))]> (companies w)
  /\ invoices (confirm e req id w).2
     = <[invoiceKey :=
           Invoice.mk (Invoice.companyId invoice) (Invoice.value invoice)
             "paid" (Some (now w)) (Some "approved")]> (invoices w)
  /\ plans (confirm e req id w).2 = plans w.
Proof.
  intros Hf Hl (Hn & Ha & Hpaid & Hc) He.
  destruct (confirm_first e req w id invoiceKey invoice company date
              Hf Hl Hn Ha Hpaid Hc He) as (Hr & Hco & Hin & _ & _ & _ & Hpl).
  split; [exact Hr|]. split; [exact Hco|]. split; [exact Hin | exact Hpl].
Qed.

Lemma first_confirmation_witness :
  (confirm Poll paymentUpdated 9001 pendingWorld).1
  = Ok (mkResponse 200
          (StatusBody "approved"
             (Some (Invoice.companyId pendingInvoice,
                    Company.mk (Company.planId acme) (Company.email acme)
                      (Company.name acme) (Company.document acme)
                      (Some (JSDate.parseDateOnly (JSDate.mkCivil 2024 7 1)))))
             true (Some "Pagamento aprovado com sucesso!")))
  /\ companies (confirm Poll paymentUpdated 9001 pendingWorld).2
     = <[Invoice.companyId pendingInvoice :=
           Company.mk (Company.planId acme) (Company.email acme)
             (Company.name acme) (Company.document acme)
             (Some (JSDate.parseDateOnly (JSDate.mkCivil 2024 7 1)))]>
         (companies pendingWorld)
  /\ invoices (confirm Poll paymentUpdated 9001 pendingWorld).2
     = <[42 :=
           Invoice.mk (Invoice.companyId pendingInvoice)
             (Invoice.value pendingInvoice) "paid" (Some (now pendingWorld))
             (Some "approved")]> (invoices pendingWorld)
  /\ plans (confirm Poll paymentUpdated 9001 pendingWorld).2
     = plans pendingWorld.
Proof.
  apply (first_confirmation Poll paymentUpdated pendingWorld 9001 42
           pendingInvoice acme (JSDate.mkCivil 2024 7 1)).
  - reflexivity.
  - exact I.
  - apply confirmable_intro.
    + split; [reflexivity|]. do 2 eexists. repeat split; reflexivity.
    + split; [reflexivity | vm_compute; reflexivity].
    + vm_compute. discriminate.
    + vm_compute. reflexivity.
  - vm_compute. reflexivity.
Defined.

(** The run that fails between its two writes. *)
Lemma confirm_partial e req w id invoiceKey invoice company date :
  faults w = invoiceWriteFails ->
  logWritable e w ->
  confirmable req w id invoiceKey invoice company ->
  extendDueDate (zone w) (Company.dueDate company) (now w) = Ok date ->
  (confirm e req id w).1
  = match e with
    | Poll => Throw checkFailed
    | Hook => Ok (json OkTrue)
    end
  /\ companies (confirm e req id w).2
     = <[Invoice.companyId invoice := withDueDate company date]> (companies w)
  /\ invoices (confirm e req id w).2 = invoices w
  /\ emitted (confirm e req id w).2 = emitted w
  /\ paymentGet (confirm e req id w).2 = paymentGet w
  /\ zone (confirm e req id w).2 = zone w
  /\ now (confirm e req id w).2 = now w
  /\ faults (confirm e req id w).2 = []
  /\ logFaults (confirm e req id w).2 = logFaults w.
Proof.
  intros Hf Hl ((Hmp & reqBody & data & Hb & Hact & Hd & Hi) & [Hget Hinv]
                & Hpaid & Hc) He.
  apply eqb_string_neq in Hpaid.
  assert (Hneg : negb (isMercadoPago (wr_type req)) = false) by by rewrite Hmp.
  destruct w as [inv co pl nw zn fl lf pg pc el wl em cr].
  cbn in Hf, Hget, Hinv, Hc, He. subst fl. unfold invoiceWriteFails.
  destruct e; cbn [confirm logWritable] in *; [|wsimpl; subst lf]; wp_start.
  - unfold checkPaymentStatus. repeat wp_follow.
    cbn [pi_status pi_external_reference String.eqb Ascii.eqb Bool.eqb].
    cbv beta iota. repeat wp_follow.
    unfold Invoices.update. apply wp_db; wsimpl; intros Hfault;
      [|discriminate Hfault].
    repeat wp_follow. done.
  - unfold webhook. repeat wp_follow.
    cbn [pi_status pi_external_reference String.eqb Ascii.eqb Bool.eqb].
    cbv beta iota. repeat wp_follow.
    unfold Invoices.update. apply wp_db; wsimpl; intros Hfault;
      [|discriminate Hfault].
    repeat wp_follow. done.
Qed.

(** X12: the two writes of a confirmation are not one step.  When the write
    of the invoice fails after the write of the company, the poll throws its
    error 500 and the webhook answers [{ok: true}], no event is sent, the
    company has the extended due date and the invoice is still not paid;
    the next confirmation of the same payment extends the due date again,
    from the date the failed run wrote.  The appends of the webhook to its
    log are taken to succeed. *)
Theorem confirmation_not_atomic e1 e2 req w id invoiceKey invoice company
    date date' :
  faults w = invoiceWriteFails ->
  logWritable e1 w ->
  logWritable e2 w ->
  confirmable req w id invoiceKey invoice company ->
  extendDueDate (zone w) (Company.dueDate company) (now w) = Ok date ->
  extendDueDate (zone w) (Some (JSDate.parseDateOnly date)) (now w) = Ok date' ->
  (confirm e1 req id w).1
  = match e1 with
    | Poll => Throw checkFailed
    | Hook => Ok (json OkTrue)
    end
  /\ emitted (confirm e1 req id w).2 = emitted w
  /\ companies (confirm e1 req id w).2 !! Invoice.companyId invoice
     = Some (withDueDate company date)
  /\ invoices (confirm e1 req id w).2 !! invoiceKey = Some invoice
  /\ companies (confirm e2 req id (confirm e1 req id w).2).2
       !! Invoice.companyId invoice
     = Some (withDueDate company date').
Proof.
  intros Hf Hl1 Hl2 Hconf He He'.
  destruct (confirm_partial e1 req w id invoiceKey invoice company date
              Hf Hl1 Hconf He)
    as (Hr & Hco & Hin & Hem & Hg & Hz & Hn & Hf1 & Hlf1).
  destruct Hconf as (Hnot & [Hget Hinv] & Hpaid & Hc).
  set (w1 := (confirm e1 req id w).2) in *.
  pose proof (logWritable_after e2 w w1 Hlf1 Hl2) as Hl2'.
  assert (Hc1 : companies w1 !! Invoice.companyId invoice
                = Some (withDueDate company date))
    by by rewrite Hco, lookup_insert_eq.
  assert (Ha1 : approvedFor w1 id invoiceKey invoice).
  { split; [by rewrite Hg | by rewrite Hin]. }
  assert (He1 : extendDueDate (zone w1)
                  (Company.dueDate (withDueDate company date)) (now w1)
                = Ok date') by by rewrite Hz, Hn.
  destruct (confirm_first e2 req w1 id invoiceKey invoice
              (withDueDate company date) date' Hf1 Hl2' Hnot Ha1 Hpaid Hc1 He1)
    as (_ & Hco2 & _).
  split; [exact Hr|]. split; [exact Hem|]. split; [exact Hc1|].
  split; [by rewrite Hin|].
  by rewrite Hco2, lookup_insert_eq.
Qed.

Lemma confirmation_not_atomic_witness :
  (confirm Poll paymentUpdated 9001
     (worldAt pendingInvoice acme invoiceWriteFails pixCreate)).1
  = Throw checkFailed
  /\ emitted (confirm Poll paymentUpdated 9001
                (worldAt pendingInvoice acme invoiceWriteFails pixCreate)).2
     = emitted (worldAt pendingInvoice acme invoiceWriteFails pixCreate)
  /\ companies (confirm Poll paymentUpdated 9001
                  (worldAt pendingInvoice acme invoiceWriteFails pixCreate)).2
       !! Invoice.companyId pendingInvoice
     = Some (withDueDate acme (JSDate.mkCivil 2024 7 1))
  /\ invoices (confirm Poll paymentUpdated 9001
                 (worldAt pendingInvoice acme invoiceWriteFails pixCreate)).2
       !! 42
     = Some pendingInvoice
  /\ companies
       (confirm Hook paymentUpdated 9001
          (confirm Poll paymentUpdated 9001
             (worldAt pendingInvoice acme invoiceWriteFails pixCreate)).2).2
       !! Invoice.companyId pendingInvoice
     = Some (withDueDate acme (JSDate.mkCivil 2024 7 31)).
Proof.
  apply (confirmation_not_atomic Poll Hook paymentUpdated
           (worldAt pendingInvoice acme invoiceWriteFails pixCreate) 9001 42
           pendingInvoice acme (JSDate.mkCivil 2024 7 1)
           (JSDate.mkCivil 2024 7 31)).
  - reflexivity.
  - exact I.
  - reflexivity.
  - apply confirmable_intro.
    + split; [reflexivity|]. do 2 eexists. repeat split; reflexivity.
    + split; [reflexivity | vm_compute; reflexivity].
    + vm_compute. discriminate.
    + vm_compute. reflexivity.
  - vm_compute. reflexivity.
  - vm_compute. reflexivity.
Defined.

(** X13: a company whose stored due date is not a valid date cannot be
    renewed: the confirmation of an approved payment of one of its invoices
    fails at [toISOString], before any write; the poll throws its error
    500, the webhook answers [{ok: true}], and the invoice stays unpaid.
    The appends of the webhook to its log are taken to succeed. *)
Theorem confirmation_invalid_due_date e req w id invoiceKey invoice company :
  faults w = [] ->
  logWritable e w ->
  confirmable req w id invoiceKey invoice company ->
  Company.dueDate company = None ->
  (confirm e req id w).1
  = match e with
    | Poll => Throw checkFailed
    | Hook => Ok (json OkTrue)
    end
  /\ sameData w (confirm e req id w).2.
Proof.
  intros Hf Hl ((Hmp & reqBody & data & Hb & Hact & Hd & Hi) & [Hget Hinv]
                & Hpaid & Hc) Hnone.
  apply eqb_string_neq in Hpaid.
  assert (Hneg : negb (isMercadoPago (wr_type req)) = false) by by rewrite Hmp.
  destruct w as [inv co pl nw zn fl lf pg pc el wl em cr].
  cbn in Hf, Hget, Hinv, Hc. subst fl.
  destruct e; cbn [confirm logWritable] in *; [|wsimpl; subst lf]; wp_start.
  - unfold checkPaymentStatus. repeat wp_follow.
    cbn [pi_status pi_external_reference String.eqb Ascii.eqb Bool.eqb].
    cbv beta iota. repeat wp_follow.
    rewrite Hnone. apply wp_liftResult; intros a Ha; [discriminate Ha|].
    repeat wp_follow. done.
  - unfold webhook. repeat wp_follow.
    cbn [pi_status pi_external_reference String.eqb Ascii.eqb Bool.eqb].
    cbv beta iota. repeat wp_follow.
    rewrite Hnone. apply wp_liftResult; intros a Ha; [discriminate Ha|].
    repeat wp_follow. done.
Qed.

Lemma confirmation_invalid_due_date_witness :
  (confirm Hook paymentUpdated 9001
     (worldAt pendingInvoice undated [] pixCreate)).1
  = Ok (json OkTrue)
  /\ sameData (worldAt pendingInvoice undated [] pixCreate)
       (confirm Hook paymentUpdated 9001
          (worldAt pendingInvoice undated [] pixCreate)).2.
Proof.
  apply (confirmation_invalid_due_date Hook paymentUpdated
           (worldAt pendingInvoice undated [] pixCreate) 9001 42
           pendingInvoice undated).
  - reflexivity.
  - reflexivity.
  - apply confirmable_intro.
    + split; [reflexivity|]. do 2 eexists. repeat split; reflexivity.
    + split; [reflexivity | vm_compute; reflexivity].
    + vm_compute. discriminate.
    + vm_compute. reflexivity.
  - reflexivity.
Defined.

Lemma confirmation_then_repeat_witness :
  companies (confirm Hook paymentUpdated 9001 pendingWorld).2
    !! Invoice.companyId pendingInvoice
  = Some (withDueDate acme (JSDate.mkCivil 2024 7 1))
  /\ (confirm Poll paymentUpdated 9001
        (confirm Hook paymentUpdated 9001 pendingWorld).2).1
     = Ok (mkResponse 200
             (StatusBody "approved" None true
                (Some "Pagamento já foi processado anteriormente!")))
  /\ companies (confirm Poll paymentUpdated 9001
                  (confirm Hook paymentUpdated 9001 pendingWorld).2).2
     = companies (confirm Hook paymentUpdated 9001 pendingWorld).2
  /\ invoices (confirm Poll paymentUpdated 9001
                 (confirm Hook paymentUpdated 9001 pendingWorld).2).2
     = invoices (confirm Hook paymentUpdated 9001 pendingWorld).2.
Proof.
  apply (confirmation_then_repeat Hook Poll paymentUpdated pendingWorld 9001 42
           pendingInvoice acme (JSDate.mkCivil 2024 7 1)).
  - reflexivity.
  - reflexivity.
  - exact I.
  - split; [reflexivity|]. do 2 eexists. repeat split; reflexivity.
  - split; [reflexivity | vm_compute; reflexivity].
  - vm_compute. discriminate.
  - vm_compute. reflexivity.
  - vm_compute. reflexivity.
Defined.

(** ** What the handlers leave alone *)

(** X14: a request to the webhook that is not a payment notification of the
    gateway, another route parameter, another action, or no payment id, is
    handled without any call to the persistence layer: no row is read or
    written and no event is sent, whether the appends to the log succeed or
    not; and with the appends succeeding it is acknowledged with
    [{ok: true}]. *)
Theorem webhook_ignores req w :
  (forall id, ~ notifies req id) ->
  (logFaults w = [] -> (webhook req w).1 = Ok (mkResponse 200 OkTrue))
  /\ sameData w (webhook req w).2
  /\ faults (webhook req w).2 = faults w.
Proof.
  intros Hnot. split.
  - intros Hl. destruct w as [inv co pl nw zn fl lf pg pc el wl em cr].
    cbn in Hl. subst lf.
    wp_start. unfold webhook. wp_run.
    all: try (exfalso; eapply Hnot; by eapply notifies_intro).
    all: done.
  - wp_start. unfold webhook. wp_run.
    all: try (exfalso; eapply Hnot; by eapply notifies_intro).
    all: done.
Qed.

Lemma webhook_ignores_witness :
  (webhook (mkWebhookRequest (Some "stripe") None) pendingWorld).1
  = Ok (mkResponse 200 OkTrue)
  /\ sameData pendingWorld
       (webhook (mkWebhookRequest (Some "stripe") None) pendingWorld).2
  /\ faults (webhook (mkWebhookRequest (Some "stripe") None) pendingWorld).2
     = faults pendingWorld.
Proof.
  assert (Hnot : forall id,
             ~ notifies (mkWebhookRequest (Some "stripe") None) id).
  { intros id (Hmp & _). vm_compute in Hmp. discriminate. }
  destruct (webhook_ignores (mkWebhookRequest (Some "stripe") None)
              pendingWorld Hnot) as (Hr & Hs & Hf).
  split; [exact (Hr eq_refl)|]. split; [exact Hs | exact Hf].
Defined.

Lemma settled_same w w' : invoices w' = invoices w -> settled w w'.
Proof. intros H k. left. by rewrite H. Qed.

Lemma settled_insert w w' id key invoice info :
  paymentGet w id = Resolves info ->
  String.eqb (pi_status info) "approved" = true ->
  pi_external_reference info = Some key ->
  invoices w !! key = Some invoice ->
  String.eqb (Invoice.status invoice) "paid" = false ->
  invoices w' = <[key := asPaid invoice (now w) (pi_status info)]> (invoices w) ->
  settled w w'.
Proof.
  intros Hget Hs Hr Hinv Hpaid Hw k. rewrite Hw.
  pose proof (approved_info _ _ Hs Hr) as ->.
  destruct (decide (k = key)) as [->|Hne].
  - right. exists id, invoice. rewrite lookup_insert_eq.
    split; [by split|]. split; [by apply String.eqb_neq | done].
  - left. by rewrite lookup_insert_ne.
Qed.

Lemma renewed_same w w' : companies w' = companies w -> renewed w w'.
Proof. intros H c. left. by rewrite H. Qed.

Lemma renewed_insert w w' id key invoice info company date :
  paymentGet w id = Resolves info ->
  String.eqb (pi_status info) "approved" = true ->
  pi_external_reference info = Some key ->
  invoices w !! key = Some invoice ->
  String.eqb (Invoice.status invoice) "paid" = false ->
  companies w !! Invoice.companyId invoice = Some company ->
  extendDueDate (zone w) (Company.dueDate company) (now w) = Ok date ->
  companies w'
  = <[Invoice.companyId invoice := withDueDate company date]> (companies w) ->
  renewed w w'.
Proof.
  intros Hget Hs Hr Hinv Hpaid Hc He Hw c. rewrite Hw.
  pose proof (approved_info _ _ Hs Hr) as ->.
  destruct (decide (c = Invoice.companyId invoice)) as [->|Hne].
  - right. exists id, key, invoice, company, date. rewrite lookup_insert_eq.
    split; [by split|]. split; [by apply String.eqb_neq | done].
  - left. by rewrite lookup_insert_ne.
Qed.

Lemma runOperation_writes op w :
  settled w (runOperation op w).2
  /\ renewed w (runOperation op w).2
  /\ plans (runOperation op w).2 = plans w.
Proof.
  destruct op as [req | req | paymentId]; cbn [runOperation]; wp_start.
  - unfold createSubscription. wp_run.
    all: split; [by apply settled_same | split; [by apply renewed_same | done]].
  - unfold webhook. wp_run.
    all: split; [first [by apply settled_same | by eapply settled_insert]|].
    all: split; [first [by apply renewed_same | by eapply renewed_insert]|].
    all: done.
  - unfold checkPaymentStatus. wp_run.
    all: split; [first [by apply settled_same | by eapply settled_insert]|].
    all: split; [first [by apply renewed_same | by eapply renewed_insert]|].
    all: done.
Qed.

(** X15: no operation writes without an approved payment.  Under every
    operation, on every path, an invoice row changes only when the gateway
    reports a payment approved that refers to it, and a company row changes
    only when the gateway reports a payment approved for an unpaid invoice
    of that company; the plans never change. *)
Theorem writes_need_approved_payment op w :
  (forall k,
     invoices (runOperation op w).2 !! k = invoices w !! k
     \/ exists id invoice,
          paymentGet w id = Resolves (mkPaymentInfo "approved" (Some k))
          /\ invoices w !! k = Some invoice
          /\ Invoice.status invoice <> "paid")
  /\ (forall c,
        companies (runOperation op w).2 !! c = companies w !! c
        \/ exists id k invoice,
             paymentGet w id = Resolves (mkPaymentInfo "approved" (Some k))
             /\ invoices w !! k = Some invoice
             /\ Invoice.status invoice <> "paid"
             /\ Invoice.companyId invoice = c)
  /\ plans (runOperation op w).2 = plans w.
Proof.
  destruct (runOperation_writes op w) as (Hs & Hr & Hp).
  split; [|split; [|exact Hp]].
  - intros k. destruct (Hs k) as [H | (id & invoice & [Hg Hi] & Hpaid & _)];
      [by left | right; eauto].
  - intros c.
    destruct (Hr c) as [H | (id & k & invoice & company & date & [Hg Hi]
                             & Hpaid & Hc & _)];
      [by left | right; eauto 7].
Qed.

(** X16: the life of an invoice.  Under every operation no invoice appears
    or disappears, an invoice keeps its company and its value, a paid
    invoice is left exactly as it is, and an invoice that changes becomes
    paid, with the time of the request as payment date and "approved" as
    last status. *)
Theorem invoice_life_cycle op w k :
  match invoices w !! k with
  | None => invoices (runOperation op w).2 !! k = None
  | Some invoice =>
      exists invoice',
        invoices (runOperation op w).2 !! k = Some invoice'
        /\ Invoice.companyId invoice' = Invoice.companyId invoice
        /\ Invoice.value invoice' = Invoice.value invoice
        /\ (Invoice.status invoice = "paid" -> invoice' = invoice)
        /\ (invoice' = invoice
            \/ (Invoice.status invoice' = "paid"
                /\ Invoice.paymentDate invoice' = Some (now w)
                /\ Invoice.lastStatus invoice' = Some "approved"))
  end.
Proof.
  destruct (runOperation_writes op w) as (Hs & _).
  destruct (Hs k) as [-> | (id & invoice & [_ Hi] & Hpaid & ->)].
  - destruct (invoices w !! k) as [invoice|]; [|done].
    exists invoice. repeat split; auto.
  - rewrite Hi. exists (asPaid invoice (now w) "approved").
    repeat split; [done | right; done].
Qed.

(** X17: under every operation no company appears or disappears, and a
    company keeps its plan, e-mail, name and document: the due date is the
    only field the feature writes. *)
Theorem company_fields_kept op w c :
  match companies w !! c with
  | None => companies (runOperation op w).2 !! c = None
  | Some company =>
      exists company',
        companies (runOperation op w).2 !! c = Some company'
        /\ Company.planId company' = Company.planId company
        /\ Company.email company' = Company.email company
        /\ Company.name company' = Company.name company
        /\ Company.document company' = Company.document company
  end.
Proof.
  destruct (runOperation_extended op w c) as [-> | (company & date & Hc & _ & ->)].
  - destruct (companies w !! c) as [company|]; [|done].
    exists company. done.
  - rewrite Hc. exists (withDueDate company date). done.
Qed.

(** ** More on the extension *)
Section ExtensionBounds.
Import JSDate JSDateFacts.

Lemma toISODate_Day t t' : Day t = Day t' -> toISODate t = toISODate t'.
Proof.
  intros H.
  unfold toISODate, DateFromTime, MonthFromTime, InLeapYear, DayWithinYear,
    YearFromTime.
  rewrite H. reflexivity.
Qed.

Lemma Day_midnight d : Day (d * msPerDay) = d.
Proof. unfold Day, msPerDay. apply Z.div_mul. lia. Qed.

(** X18: the due date, once written, is stable under reading and writing.
    The date [toISOString] gives is a date of the calendar, month 1 to 12
    and day within the month; read back with [new Date] it is midnight UTC
    of the day of the instant it was taken from; and formatted again it is
    the same date. *)
Theorem dueDate_round_trip t :
  1 <= month (toISODate t) <= 12
  /\ 1 <= day (toISODate t)
     <= DaysInMonth (leapDays (year (toISODate t))) (month (toISODate t) - 1)
  /\ parseDateOnly (toISODate t) <= t < parseDateOnly (toISODate t) + msPerDay
  /\ toISODate (parseDateOnly (toISODate t)) = toISODate t.
Proof.
  split; [|split; [|split]].
  - cbn [month toISODate]. pose proof (MonthFromTime_range t). lia.
  - cbn [month day year toISODate].
    replace (MonthFromTime t + 1 - 1) with (MonthFromTime t) by lia.
    apply DateFromTime_range.
  - rewrite parseDateOnly_toISODate. apply Day_floor.
  - rewrite parseDateOnly_toISODate. apply toISODate_Day, Day_midnight.
Qed.

(** X19: a renewal always reaches into the future.  On any host whose
    offsets from UTC stay within a day, the due date a confirmation writes
    is more than 27 days after the time of the confirmation and more than
    27 days after the due date it replaces. *)
Theorem extendDueDate_future tza D N date :
  zoneWithinADay tza ->
  extendDueDate tza (Some D) N = Ok date ->
  N + 27 * msPerDay < parseDateOnly date
  /\ D + 27 * msPerDay < parseDateOnly date.
Proof.
  intros Hz H. apply extendDueDate_Ok in H as (D' & [= <-] & ->).
  rewrite parseDateOnly_toISODate. unfold UTC, LocalTime.
  set (b := Z.max D N).
  set (u := b + tza b true + 30 * msPerDay).
  pose proof (Hz b true) as H1. pose proof (Hz u false) as H2.
  pose proof (Day_floor (u - tza u false)) as Hf.
  assert (D <= b /\ N <= b) as [HD HN] by lia.
  unfold msPerDay in *. lia.
Qed.

Lemma extendDueDate_future_witness :
  utc 2024 5 20 12 0 + 27 * msPerDay < parseDateOnly (mkCivil 2024 7 1)
  /\ utc 2024 6 1 0 0 + 27 * msPerDay < parseDateOnly (mkCivil 2024 7 1).
Proof.
  apply (extendDueDate_future saoPaulo (utc 2024 6 1 0 0) (utc 2024 5 20 12 0)
           (mkCivil 2024 7 1)).
  - intros t isUTC. vm_compute. discriminate.
  - vm_compute. reflexivity.
Defined.

(** X20: on a host of fixed offset the renewal is worth between 29 and 30
    days: the due date written is more than 29 days and at most 30 days
    after the later of the old due date and the time of the confirmation;
    and when the old due date is a midnight UTC still to come, as the ones
    this feature writes are, it is exactly 30 days after it. *)
Theorem extendDueDate_fixed_offset offset D N :
  Z.abs (Z.max D N + 30 * msPerDay) <= maxTime ->
  exists date,
    extendDueDate (fixedZone offset) (Some D) N = Ok date
    /\ Z.max D N + 29 * msPerDay < parseDateOnly date
       <= Z.max D N + 30 * msPerDay
    /\ (N <= D -> TimeWithinDay D = 0 ->
        parseDateOnly date = D + 30 * msPerDay).
Proof.
  intros Hrange. exists (toISODate (Z.max D N + 30 * msPerDay)).
  split.
  - rewrite extendDueDate_local. unfold UTC, LocalTime, fixedZone.
    replace (Z.max D N + offset + 30 * msPerDay - offset)
      with (Z.max D N + 30 * msPerDay) by lia.
    unfold TimeClip. apply Z.leb_le in Hrange. by rewrite Hrange.
  - rewrite parseDateOnly_toISODate.
    pose proof (Day_floor (Z.max D N + 30 * msPerDay)) as Hf.
    split; [unfold msPerDay in *; lia|].
    intros HN H0. rewrite Z.max_l by lia. rewrite Day_add_days.
    unfold TimeWithinDay in H0. unfold Day.
    pose proof (Z.div_mod D msPerDay ltac:(unfold msPerDay; lia)). lia.
Qed.

Lemma extendDueDate_fixed_offset_witness :
  exists date,
    extendDueDate (fixedZone (-3 * hour)) (Some (utc 2024 6 1 0 0))
      (utc 2024 5 20 12 0) = Ok date
    /\ Z.max (utc 2024 6 1 0 0) (utc 2024 5 20 12 0) + 29 * msPerDay
       < parseDateOnly date
       <= Z.max (utc 2024 6 1 0 0) (utc 2024 5 20 12 0) + 30 * msPerDay
    /\ (utc 2024 5 20 12 0 <= utc 2024 6 1 0 0 ->
        TimeWithinDay (utc 2024 6 1 0 0) = 0 ->
        parseDateOnly date = utc 2024 6 1 0 0 + 30 * msPerDay).
Proof.
  apply (extendDueDate_fixed_offset (-3 * hour) (utc 2024 6 1 0 0)
           (utc 2024 5 20 12 0)).
  vm_compute. discriminate.
Defined.

End ExtensionBounds.

(** ** Renewals in a row *)

(** No operation touches the clock, the zone or the gateway. *)
Lemma runOperation_environment op w :
  now (runOperation op w).2 = now w
  /\ zone (runOperation op w).2 = zone w
  /\ paymentGet (runOperation op w).2 = paymentGet w
  /\ paymentCreate (runOperation op w).2 = paymentCreate w.
Proof.
  destruct op as [req | req | paymentId]; cbn [runOperation]; wp_start.
  - unfold createSubscription. wp_run; done.
  - unfold webhook. wp_run; done.
  - unfold checkPaymentStatus. wp_run; done.
Qed.

Lemma confirm_environment e req id w :
  now (confirm e req id w).2 = now w
  /\ zone (confirm e req id w).2 = zone w.
Proof.
  destruct e; cbn [confirm].
  - destruct (runOperation_environment (CheckPaymentStatus id) w) as (? & ? & _).
    done.
  - destruct (runOperation_environment (Webhook req) w) as (? & ? & _). done.
Qed.

(** The due date over a history.  On a host whose offsets from UTC stay
    within a day, whatever operations are run one after the other, at
    whatever times, a company that had a valid due date has one afterwards,
    and not an earlier one. *)
Lemma dueDate_monotone_history h w k company D :
  zoneWithinADay (zone w) ->
  companies w !! k = Some company ->
  Company.dueDate company = Some D ->
  exists company' D',
    companies (runHistory h w) !! k = Some company'
    /\ Company.dueDate company' = Some D'
    /\ D <= D'.
Proof.
  revert w company D.
  induction h as [|[t op] rest IH]; intros w company D Hz Hc HD.
  - exists company, D. cbn [runHistory]. repeat split; [done | done | lia].
  - cbn [runHistory]. set (w0 := at_time t w).
    assert (Hz0 : zoneWithinADay (zone w0)) by exact Hz.
    assert (Hc0 : companies w0 !! k = Some company) by exact Hc.
    destruct (runOperation_environment op w0) as (_ & Hzone & _).
    assert (Hz1 : zoneWithinADay (zone (runOperation op w0).2))
      by by rewrite Hzone.
    destruct (runOperation_extended op w0 k)
      as [Hsame | (c & date & Hc' & Hd & Hnew)].
    + rewrite Hc0 in Hsame.
      destruct (IH _ company D Hz1 Hsame HD) as (company' & D' & ? & ? & ?).
      by exists company', D'.
    + rewrite Hc0 in Hc'. injection Hc' as <-. rewrite HD in Hd.
      pose proof (extendDueDate_later _ _ _ _ Hz0 Hd) as Hle.
      destruct (IH _ (withDueDate company date) (JSDate.parseDateOnly date)
                  Hz1 Hnew eq_refl) as (company' & D' & ? & ? & ?).
      exists company', D'. repeat split; [done | done | lia].
Qed.

(** On a host of fixed offset a midnight UTC still to come is extended by
    exactly thirty days. *)
Lemma extendDueDate_exact offset D N :
  N <= D ->
  JSDate.TimeWithinDay D = 0 ->
  Z.abs (D + 30 * JSDate.msPerDay) <= JSDate.maxTime ->
  extendDueDate (JSDate.fixedZone offset) (Some D) N
  = Ok (JSDate.toISODate (D + 30 * JSDate.msPerDay))
  /\ JSDate.parseDateOnly (JSDate.toISODate (D + 30 * JSDate.msPerDay))
     = D + 30 * JSDate.msPerDay.
Proof.
  intros HN H0 Hrange. split.
  - rewrite extendDueDate_local.
    unfold JSDate.UTC, JSDate.LocalTime, JSDate.fixedZone.
    rewrite Z.max_l by lia.
    replace (D + offset + 30 * JSDate.msPerDay - offset)
      with (D + 30 * JSDate.msPerDay) by lia.
    unfold JSDate.TimeClip. apply Z.leb_le in Hrange. by rewrite Hrange.
  - rewrite JSDateFacts.parseDateOnly_toISODate, JSDateFacts.Day_add_days.
    unfold JSDate.TimeWithinDay in H0. unfold JSDate.Day.
    pose proof (Z.div_mod D JSDate.msPerDay
                  ltac:(unfold JSDate.msPerDay; lia)). lia.
Qed.

(** X21: renewals add up.  On a host of fixed offset, when two invoices of
    a company whose due date is a midnight UTC still to come are confirmed
    one after the other, each by any of the two entry points, the second
    before the new due date, the company ends due exactly sixty days after
    its first due date.  The persistence layer is taken to work, and so are
    the appends of the webhook to its log. *)
Theorem two_renewals e1 e2 req1 req2 w id1 id2 k1 k2 invoice1 invoice2
    company offset D N2 :
  faults w = [] ->
  logWritable e1 w ->
  logWritable e2 w ->
  zone w = JSDate.fixedZone offset ->
  confirmable req1 w id1 k1 invoice1 company ->
  confirmable req2 w id2 k2 invoice2 company ->
  k1 <> k2 ->
  Invoice.companyId invoice2 = Invoice.companyId invoice1 ->
  Company.dueDate company = Some D ->
  JSDate.TimeWithinDay D = 0 ->
  now w <= D ->
  N2 <= D + 30 * JSDate.msPerDay ->
  Z.abs D <= JSDate.maxTime ->
  Z.abs (D + 60 * JSDate.msPerDay) <= JSDate.maxTime ->
  Company.dueDate
  <$> companies
        (confirm e2 req2 id2 (at_time N2 (confirm e1 req1 id1 w).2)).2
        !! Invoice.companyId invoice1
  = Some (Some (D + 60 * JSDate.msPerDay)).
Proof.
  intros Hf Hl1 Hl2 Hz (Hn1 & Ha1 & Hp1 & Hc1) (Hn2 & [Hg2 Hi2] & Hp2 & Hc2)
    Hk Hsame HD H0 HN1 HN2 HDr Hrange.
  assert (Hr1 : Z.abs (D + 30 * JSDate.msPerDay) <= JSDate.maxTime).
  { unfold JSDate.msPerDay, JSDate.maxTime in *. lia. }
  destruct (extendDueDate_exact offset D (now w) HN1 H0 Hr1) as [He1 Hd1].
  set (date1 := JSDate.toISODate (D + 30 * JSDate.msPerDay)) in *.
  assert (He1' : extendDueDate (zone w) (Company.dueDate company) (now w)
                 = Ok date1) by by rewrite Hz, HD.
  destruct (confirm_first e1 req1 w id1 k1 invoice1 company date1
              Hf Hl1 Hn1 Ha1 Hp1 Hc1 He1')
    as (_ & Hco1 & Hin1 & Hget1 & Hf1 & Hlf1 & _).
  destruct (confirm_environment e1 req1 id1 w) as [_ Hz1].
  set (w1 := (confirm e1 req1 id1 w).2) in *.
  set (w2 := at_time N2 w1).
  assert (H0' : JSDate.TimeWithinDay (D + 30 * JSDate.msPerDay) = 0).
  { unfold JSDate.TimeWithinDay, JSDate.msPerDay in *.
    rewrite Z.add_mod, Z.mod_mul, H0 by lia. reflexivity. }
  assert (Hr2 : Z.abs (D + 30 * JSDate.msPerDay + 30 * JSDate.msPerDay)
                <= JSDate.maxTime).
  { unfold JSDate.msPerDay, JSDate.maxTime in *. lia. }
  destruct (extendDueDate_exact offset (D + 30 * JSDate.msPerDay) N2
              HN2 H0' Hr2) as [He2 Hd2].
  set (date2 := JSDate.toISODate
                  (D + 30 * JSDate.msPerDay + 30 * JSDate.msPerDay)) in *.
  assert (Hc2' : companies w2 !! Invoice.companyId invoice2
                 = Some (withDueDate company date1)).
  { unfold w2. cbn [at_time companies]. by rewrite Hco1, Hsame, lookup_insert_eq. }
  assert (Ha2' : approvedFor w2 id2 k2 invoice2).
  { unfold w2. split; cbn [at_time paymentGet invoices].
    - by rewrite Hget1.
    - by rewrite Hin1, lookup_insert_ne. }
  assert (He2' : extendDueDate (zone w2)
                   (Company.dueDate (withDueDate company date1)) (now w2)
                 = Ok date2).
  { unfold w2. cbn [at_time zone now withDueDate Company.dueDate].
    by rewrite Hz1, Hz, Hd1. }
  assert (Hf2 : faults w2 = []) by (unfold w2; cbn [at_time faults]; done).
  assert (Hl2' : logWritable e2 w2).
  { apply (logWritable_after e2 w); [|exact Hl2].
    unfold w2. cbn [at_time logFaults]. exact Hlf1. }
  destruct (confirm_first e2 req2 w2 id2 k2 invoice2
              (withDueDate company date1) date2 Hf2 Hl2' Hn2 Ha2' Hp2 Hc2' He2')
    as (_ & Hco2 & _).
  rewrite Hco2, Hsame, lookup_insert_eq.
  cbn [fmap option_fmap option_map withDueDate Company.dueDate].
  rewrite Hd2. do 2 f_equal. lia.
Qed.

Lemma two_renewals_witness :
  Company.dueDate
  <$> companies
        (confirm Hook paymentCreated 9002
           (at_time (utc 2024 6 15 9 0)
              (confirm Poll paymentUpdated 9001 twoInvoices).2)).2
        !! Invoice.companyId pendingInvoice
  = Some (Some (utc 2024 6 1 0 0 + 60 * JSDate.msPerDay)).
Proof.
  apply (two_renewals Poll Hook paymentUpdated paymentCreated twoInvoices
           9001 9002 42 43 pendingInvoice pendingInvoice acme (-3 * hour)
           (utc 2024 6 1 0 0) (utc 2024 6 15 9 0)).
  - reflexivity.
  - exact I.
  - reflexivity.
  - reflexivity.
  - apply confirmable_intro.
    + split; [reflexivity|]. do 2 eexists. repeat split; reflexivity.
    + split; [reflexivity | vm_compute; reflexivity].
    + vm_compute. discriminate.
    + vm_compute. reflexivity.
  - apply confirmable_intro.
    + split; [reflexivity|]. do 2 eexists. repeat split; reflexivity.
    + split; [reflexivity | vm_compute; reflexivity].
    + vm_compute. discriminate.
    + vm_compute. reflexivity.
  - discriminate.
  - reflexivity.
  - reflexivity.
  - vm_compute. reflexivity.
  - vm_compute. discriminate.
  - vm_compute. discriminate.
  - vm_compute. discriminate.
  - vm_compute. discriminate.
Defined.

(** ** Runs of the poller *)
Module PollerRuns.
Import Poller PollerFacts.

Lemma ticks_snoc rs r s : ticks (rs ++ [r]) s = tick r (ticks rs s).
Proof. unfold ticks. by rewrite fold_left_app. Qed.

Lemma onError_isAuthFailure status s :
  onError status s
  = if isAuthFailure status
    then setTimeout "/login" 3000 (toast ToastError s)
    else s.
Proof.
  unfold onError, isAuthFailure. destruct status as [[|p|p]|]; try done.
  do 9 (destruct p as [p|p|]; try done).
Qed.

(** The poller while every reply is unsuccessful and the budget lasts. *)
Lemma unsuccessful_within r rs :
  Forall isUnsuccessful (r :: rs) ->
  (length rs < 120)%nat ->
  poll r rs = mkState (Z.of_nat (length rs) + 1) true true (S (length rs)) [] [].
Proof.
  induction rs as [|r' rs IH] using rev_ind; intros Hall Hlen.
  - apply Forall_cons in Hall as [[company ->] _]. reflexivity.
  - rewrite app_comm_cons in Hall. apply Forall_app in Hall as [Hall Hr'].
    apply Forall_cons in Hr' as [[company ->] _].
    rewrite length_app in *. cbn [length] in *.
    unfold poll in *. rewrite ticks_snoc, IH by (done || lia).
    unfold tick, checkPayment. cbn [intervalId request settle attempts].
    destruct (Z.leb_spec maxAttempts (Z.of_nat (length rs) + 1)) as [Hle|_].
    + unfold maxAttempts in Hle. lia.
    + unfold increment. cbn. f_equal; lia.
Qed.

(** X22: with nothing but unsuccessful replies the poller sends one request
    per cycle for 121 cycles and then no more: while fewer than 121 replies
    are in it is still checking, with its interval set and the counter at
    the number of replies; from the 121st reply on it is expired, with the
    notice shown once, and has sent 121 requests. *)
Theorem unsuccessful_run r rs :
  Forall isUnsuccessful (r :: rs) ->
  ((length rs < 120)%nat ->
   poll r rs = mkState (Z.of_nat (length rs) + 1) true true (S (length rs)) [] [])
  /\ ((120 <= length rs)%nat ->
      poll r rs = mkState 121 false false 121 [ToastInfo] []).
Proof.
  intros Hall. split; [by apply unsuccessful_within|].
  intros Hlen.
  rewrite <- (take_drop 119 rs) in Hall |- *.
  assert (Hlt : length (take 119 rs) = 119%nat) by (rewrite length_take; lia).
  destruct (drop 119 rs) as [|r' rest] eqn:Hdrop.
  { apply (f_equal length) in Hdrop. rewrite length_drop in Hdrop.
    cbn in Hdrop. lia. }
  rewrite app_comm_cons in Hall. apply Forall_app in Hall as [Hall Hrest].
  apply Forall_cons in Hrest as [[company ->] _].
  unfold poll, ticks. rewrite fold_left_app. fold (ticks (take 119 rs) (mount r)).
  fold (poll r (take 119 rs)).
  rewrite unsuccessful_within, Hlt by (done || lia).
  cbn [fold_left]. fold (ticks rest).
  rewrite ticks_cleared; reflexivity.
Qed.

Lemma unsuccessful_run_witness :
  ((length (repeat unsuccessful 200) < 120)%nat ->
   poll unsuccessful (repeat unsuccessful 200)
   = mkState (Z.of_nat (length (repeat unsuccessful 200)) + 1) true true
       (S (length (repeat unsuccessful 200))) [] [])
  /\ ((120 <= length (repeat unsuccessful 200))%nat ->
      poll unsuccessful (repeat unsuccessful 200)
      = mkState 121 false false 121 [ToastInfo] []).
Proof.
  apply (unsuccessful_run unsuccessful (repeat unsuccessful 200)).
  apply Forall_cons. split; [by exists None|].
  apply Forall_forall. intros r Hr. apply list_elem_of_In, repeat_spec in Hr.
  subst. by exists None.
Defined.

Lemma authFailures_snoc statuses status :
  authFailures (statuses ++ [status])
  = (authFailures statuses + if isAuthFailure status then 1 else 0)%nat.
Proof.
  unfold authFailures. rewrite map_app, count_occ_app. cbn [map count_occ].
  destruct (isAuthFailure status); reflexivity.
Qed.

(** X23: while the requests fail the poller goes on for ever.  After any
    number of rejected requests, 401 and 403 included, it is still checking
    with its interval set, its counter is still 0, and it has sent one
    request per cycle; each 401 or 403 has shown the session notice and
    scheduled a redirection to the login page, once more every time. *)
Theorem rejected_run status statuses :
  poll (Rejected status) (Rejected <$> statuses)
  = mkState 0 true true (S (length statuses))
      (repeat ToastError (authFailures (status :: statuses)))
      (repeat ("/login"%string, 3000) (authFailures (status :: statuses))).
Proof.
  induction statuses as [|status' statuses IH] using rev_ind.
  - cbn [fmap list_fmap poll ticks fold_left mount settle length].
    rewrite onError_isAuthFailure. unfold authFailures.
    cbn [map count_occ]. destruct (isAuthFailure status); reflexivity.
  - rewrite fmap_app. cbn [fmap list_fmap]. unfold poll in *.
    rewrite ticks_snoc, IH. clear IH.
    rewrite app_comm_cons, authFailures_snoc, length_app.
    unfold tick, checkPayment. cbn [intervalId request settle length].
    rewrite onError_isAuthFailure.
    destruct (isAuthFailure status').
    + rewrite !Nat.add_1_r. unfold setTimeout, toast, request.
      cbn [attempts isChecking intervalId requests toasts timeouts].
      rewrite <- !repeat_cons. reflexivity.
    + rewrite Nat.add_0_r, Nat.add_1_r. reflexivity.
Qed.

End PollerRuns.

(** ** The poll as the poller sees it *)

(** X24: when the poll itself confirms the payment, the answer it gives
    makes the poller stop, clear its interval, show the new due date of the
    company in the success notice and schedule the redirection to the home
    page after four seconds. *)
Theorem poller_sees_confirmation req w id invoiceKey invoice company date s :
  faults w = [] ->
  confirmable req w id invoiceKey invoice company ->
  extendDueDate (zone w) (Company.dueDate company) (now w) = Ok date ->
  exists response,
    (checkPaymentStatus id w).1 = Ok response
    /\ code response = 200
    /\ Poller.settle (dataOf (body response)) s
       = Poller.mkState (Poller.attempts s + 1) false false (Poller.requests s)
           (Poller.toasts s
              ++ [Poller.ToastSuccess (Some (JSDate.parseDateOnly date))])
           (Poller.timeouts s ++ [("/"%string, 4000)]).
Proof.
  intros Hf (Hn & Ha & Hpaid & Hc) He.
  destruct (checkPaymentStatus_first w id invoiceKey invoice company date
              Hf Ha Hpaid Hc He) as (Hr & _).
  eexists. split; [exact Hr|]. split; reflexivity.
Qed.

Lemma poller_sees_confirmation_witness :
  exists response,
    (checkPaymentStatus 9001 pendingWorld).1 = Ok response
    /\ code response = 200
    /\ Poller.settle (dataOf (body response)) (Poller.setInterval Poller.init)
       = Poller.mkState
           (Poller.attempts (Poller.setInterval Poller.init) + 1) false false
           (Poller.requests (Poller.setInterval Poller.init))
           (Poller.toasts (Poller.setInterval Poller.init)
              ++ [Poller.ToastSuccess
                    (Some (JSDate.parseDateOnly (JSDate.mkCivil 2024 7 1)))])
           (Poller.timeouts (Poller.setInterval Poller.init)
              ++ [("/"%string, 4000)]).
Proof.
  apply (poller_sees_confirmation paymentUpdated pendingWorld 9001 42
           pendingInvoice acme (JSDate.mkCivil 2024 7 1)
           (Poller.setInterval Poller.init)).
  - reflexivity.
  - apply confirmable_intro.
    + split; [reflexivity|]. do 2 eexists. repeat split; reflexivity.
    + split; [reflexivity | vm_compute; reflexivity].
    + vm_compute. discriminate.
    + vm_compute. reflexivity.
  - vm_compute. reflexivity.
Defined.

(** X25: when the webhook confirms the payment before the poll asks, the
    poll answers "previously processed", a success without company, and
    the poller, reading the due date of a company that is not there, only
    stops and clears its interval: no notice is shown, no redirection is
    scheduled, and the counter is not incremented.  The persistence layer
    and the appends of the webhook to its log are taken to work. *)
Theorem poller_after_webhook req w id invoiceKey invoice company date s :
  faults w = [] ->
  logFaults w = [] ->
  confirmable req w id invoiceKey invoice company ->
  extendDueDate (zone w) (Company.dueDate company) (now w) = Ok date ->
  exists response,
    (checkPaymentStatus id (webhook req w).2).1 = Ok response
    /\ code response = 200
    /\ Poller.settle (dataOf (body response)) s
       = Poller.mkState (Poller.attempts s) false false (Poller.requests s)
           (Poller.toasts s) (Poller.timeouts s).
Proof.
  intros Hf Hl (Hn & Ha & Hpaid & Hc) He.
  destruct (webhook_first req w id invoiceKey invoice company date
              Hf Hl Hn Ha Hpaid Hc He) as (_ & _ & Hin & Hget & Hf1 & _).
  set (w1 := (webhook req w).2) in *.
  assert (Ha1 : approvedFor w1 id invoiceKey
                  (asPaid invoice (now w) "approved")).
  { destruct Ha as [Hg _]. split; [by rewrite Hget|].
    by rewrite Hin, lookup_insert_eq. }
  assert (Hhd : hd false (faults w1) = false) by by rewrite Hf1.
  destruct (checkPaymentStatus_paid w1 id invoiceKey _ Hhd Ha1 eq_refl)
    as (Hr & _).
  eexists. split; [exact Hr|]. split; reflexivity.
Qed.

Lemma poller_after_webhook_witness :
  exists response,
    (checkPaymentStatus 9001 (webhook paymentUpdated pendingWorld).2).1
    = Ok response
    /\ code response = 200
    /\ Poller.settle (dataOf (body response)) (Poller.setInterval Poller.init)
       = Poller.mkState (Poller.attempts (Poller.setInterval Poller.init))
           false false (Poller.requests (Poller.setInterval Poller.init))
           (Poller.toasts (Poller.setInterval Poller.init))
           (Poller.timeouts (Poller.setInterval Poller.init)).
Proof.
  apply (poller_after_webhook paymentUpdated pendingWorld 9001 42
           pendingInvoice acme (JSDate.mkCivil 2024 7 1)
           (Poller.setInterval Poller.init)).
  - reflexivity.
  - reflexivity.
  - apply confirmable_intro.
    + split; [reflexivity|]. do 2 eexists. repeat split; reflexivity.
    + split; [reflexivity | vm_compute; reflexivity].
    + vm_compute. discriminate.
    + vm_compute. reflexivity.
  - vm_compute. reflexivity.
Defined.

(** ** The copy button *)
Module CopyButtonFacts.
Import CopyButton.

Lemma armed_init : armed init.
Proof. intros H. discriminate H. Qed.

Lemma armed_handleCopyQR t s : armed (handleCopyQR t s).
Proof. intros _. cbn. by destruct (pending s). Qed.

Lemma copies_snoc ts t s :
  copies (ts ++ [t]) s = handleCopyQR t (elapse t (copies ts s)).
Proof. unfold copies. by rewrite fold_left_app. Qed.

Lemma copies_armed ts s : armed s -> armed (copies ts s).
Proof.
  induction ts as [|t ts IH] using rev_ind; [done|].
  intros Hs. rewrite copies_snoc. apply armed_handleCopyQR.
Qed.

Lemma copies_pending ts s T :
  Forall (fun due => due <= T) (pending s) ->
  Forall (fun t => t + 1000 <= T) ts ->
  Forall (fun due => due <= T) (pending (copies ts s)).
Proof.
  intros Hs. induction ts as [|t ts IH] using rev_ind; [done|].
  intros Hts. apply Forall_app in Hts as [Hts Ht].
  apply Forall_cons in Ht as [Ht _].
  rewrite copies_snoc. cbn [handleCopyQR elapse pending].
  apply Forall_app. split.
  - apply Forall_forall. intros due Hdue.
    apply list_elem_of_filter in Hdue as [_ Hdue].
    pose proof (IH Hts) as Hall. rewrite Forall_forall in Hall. by apply Hall.
  - by apply Forall_cons.
Qed.

Lemma elapse_all_due T s :
  armed s ->
  Forall (fun due => due <= T) (pending s) ->
  elapse T s = init.
Proof.
  intros Ha Hall. unfold elapse, init. f_equal.
  - destruct (pending s) as [|due rest] eqn:Hp.
    + cbn. destruct (copied s) eqn:Hc; [|done]. by destruct (Ha Hc).
    + apply Forall_cons in Hall as [Hdue _]. cbn.
      destruct (Z.ltb_spec T due); [lia | done].
  - induction Hall as [|due rest Hdue Hrest IH]; [done|].
    rewrite filter_cons, decide_False by lia. exact IH.
Qed.

(** X26: the acknowledgement of a copy always goes away.  After any number
    of copies, once a second has passed since each of them, [copied] is
    unset again and no callback is left pending. *)
Theorem copied_resets ts T :
  Forall (fun t => t + 1000 <= T) ts ->
  elapse T (copies ts init) = init.
Proof.
  intros Hts. apply elapse_all_due.
  - apply copies_armed, armed_init.
  - by apply copies_pending.
Qed.

Lemma copied_resets_witness : elapse 5000 (copies [100; 2500; 3999] init) = init.
Proof.
  apply (copied_resets [100; 2500; 3999] 5000).
  repeat (apply Forall_cons; split; [lia|]). apply Forall_nil_2.
Defined.

(** X27: a second copy within the second does not get its own second: the
    callback of the first copy unsets [copied] when it is due, with the
    callback of the second copy still pending. *)
Theorem second_copy_cut_short t1 t2 T :
  t1 <= t2 < t1 + 1000 ->
  t1 + 1000 <= T < t2 + 1000 ->
  elapse T (copies [t1; t2] init) = mkState false [t2 + 1000].
Proof.
  intros H12 HT. unfold copies, elapse, handleCopyQR, init.
  cbn [fold_left pending copied forallb app].
  rewrite !filter_nil. cbn [app forallb].
  rewrite filter_cons, decide_True, filter_nil by lia.
  cbn [app pending copied forallb].
  rewrite filter_cons, decide_False by lia.
  rewrite filter_cons, decide_True, filter_nil by lia.
  destruct (Z.ltb_spec T (t1 + 1000)); [lia | reflexivity].
Qed.

Lemma second_copy_cut_short_witness :
  elapse 1200 (copies [0; 900] init) = mkState false [900 + 1000].
Proof.
  apply (second_copy_cut_short 0 900 1200); lia.
Defined.

End CopyButtonFacts.
